(** * extract-test-file.py: extraction of \DeclareUnicodeCharacter
      declarations and generation of pdflatex test documents

    A shallow embedding of [src/extract-test-file.py] and the proofs of
    the properties stated about it.

    Conventions of the embedding.
    - A Python [str] is the list of its code points ([N]), each below
      0x110000; a Python [int] is a [Z].
    - The process environment is a [World]: the text files by path, the
      trace of what the program did to its environment (lines printed,
      files written, directories made, commands run), in order.
    - [os.system] is an oracle of two parts: the status that its k-th
      call returns, a function [nat -> Z], and what the command run by
      that call does to the files, a function on the file system; a
      statement about every oracle is a statement about every behaviour
      of pdflatex.
    - A file opened for writing with [encoding='utf-8'] is the text
      written to it so far; a [write] of a string with a lone surrogate
      raises [UnicodeEncodeError] and writes nothing of it; what was
      written before reaches the file system when the [with] block is
      left, by the end of its body or by the exception. *)

From Stdlib Require Import ZArith NArith List String Ascii Lia Bool.
From Stdlib Require Import DecimalString Sorted.
From stdpp Require Import base option list gmap.

Local Open Scope Z_scope.

(** ** Python strings and integers *)

Abbreviation str := (list N).

(** An ASCII literal of the source as a [str]. *)
Definition py (s : string) : str :=
  map N_of_ascii (list_ascii_of_string s).
Arguments py _%_string : simpl never.

(** [str(n)] and [f"{n}"] for a non-negative [int] such as a [len]. *)
Definition str_of_nat (n : nat) : str :=
  py (NilEmpty.string_of_uint (Nat.to_uint n)).

(** The value of a hexadecimal digit, upper or lower case. *)
Definition hex_digit_value (c : N) : option Z :=
  if ((48 <=? c) && (c <=? 57))%N then Some (Z.of_N c - 48)
  else if ((65 <=? c) && (c <=? 70))%N then Some (Z.of_N c - 55)
  else if ((97 <=? c) && (c <=? 102))%N then Some (Z.of_N c - 87)
  else None.

Fixpoint int16_digits (acc : Z) (s : str) : option Z :=
  match s with
  | [] => Some acc
  | c :: s' =>
      match hex_digit_value c with
      | Some d => int16_digits (16 * acc + d) s'
      | None => None
      end
  end.

(** [int(s, 16)] on a string of digits; [None] is [ValueError].  Signs,
    a [0x] prefix, underscores and surrounding white space, which
    Python accepts too, are left out: a group of the pattern below never
    has them. *)
Definition int16 (s : str) : option Z :=
  match s with
  | [] => None
  | _ => int16_digits 0 s
  end.

(** [chr(i)]: the one-character string of code point [i]; [None] is the
    [ValueError] of an argument outside [range(0x110000)]. *)
Definition chr (i : Z) : option str :=
  if (0 <=? i) && (i <=? 1114111) then Some [Z.to_N i] else None.

(** The code points that UTF-8 does not encode: the surrogates. *)
Definition is_surrogate (c : N) : bool :=
  ((55296 <=? c) && (c <=? 57343))%N.

(** The first character of [s] that the [utf-8] codec refuses, if any. *)
Definition encode_error (s : str) : option N := List.find is_surrogate s.

(** ** The regular expression

    [r'\\DeclareUnicodeCharacter\{([0-9A-F]{4})\}\{.*?\}'], piece by
    piece. *)

(** The literal text [\DeclareUnicodeCharacter{]. *)
Definition keyword : str := py "\DeclareUnicodeCharacter{".

(** A literal piece of the pattern: the rest of the subject after it. *)
Fixpoint match_literal (lit s : str) : option str :=
  match lit, s with
  | [], _ => Some s
  | _ :: _, [] => None
  | a :: lit', b :: s' => if (a =? b)%N then match_literal lit' s' else None
  end.

(** The class [[0-9A-F]]. *)
Definition upper_hex (c : N) : bool :=
  ((48 <=? c) && (c <=? 57) || (65 <=? c) && (c <=? 70))%N.

(** [([0-9A-F]{4})]: the captured group and the rest of the subject. *)
Fixpoint match_hex (n : nat) (s : str) : option (str * str) :=
  match n with
  | O => Some ([], s)
  | S n' =>
      match s with
      | c :: s' =>
          if upper_hex c then
            match match_hex n' s' with
            | Some (g, rest) => Some (c :: g, rest)
            | None => None
            end
          else None
      | [] => None
      end
  end.

(** [.*?\}]: the lazy star gives way to the closing brace at the first
    one it meets; [.] does not match a line feed.  The result is the
    number of characters consumed, the brace included. *)
Fixpoint match_payload (s : str) : option nat :=
  match s with
  | [] => None
  | c :: s' =>
      if (c =? 125)%N then Some 1%nat
      else if (c =? 10)%N then None
      else match match_payload s' with
           | Some n => Some (S n)
           | None => None
           end
  end.

(** The whole pattern, anchored at the head of [s]: group 1 and the
    length of the match. *)
Definition match_here (s : str) : option (str * nat) :=
  match match_literal keyword s with
  | None => None
  | Some s1 =>
      match match_hex 4 s1 with
      | None => None
      | Some (g, s2) =>
          match match_literal (py "}{") s2 with
          | None => None
          | Some s3 =>
              match match_payload s3 with
              | None => None
              | Some n => Some (g, (length keyword + 4 + 2 + n)%nat)
              end
          end
      end
  end.

(** One match of the scan: where it starts, its group 1, its length. *)
Record Match := mkMatch {
  m_start : nat;
  m_group : str;
  m_length : nat
}.

(** The left-to-right scan of [re.finditer]: at each position the
    pattern is tried; after a match the scan resumes at its end, after a
    failure one character further.  [skip] counts the characters of the
    last match still to step over. *)
Fixpoint scan (pos skip : nat) (s : str) : list Match :=
  match s with
  | [] => []
  | _ :: s' =>
      match skip with
      | S k => scan (S pos) k s'
      | O =>
          match match_here s with
          | Some (g, n) => mkMatch pos g n :: scan (S pos) (n - 1) s'
          | None => scan (S pos) 0 s'
          end
      end
  end.

Definition finditer (s : str) : list Match := scan 0 0 s.

(** [re.findall(pattern, content)]: with one group in the pattern, the
    list of the group of each match. *)
Definition findall (content : str) : list str :=
  map m_group (finditer content).

(** ** The environment *)

(** What the program does to its environment. *)
Inductive event :=
  | Print (line : str)                 (* print(line) *)
  | Makedirs (path : str)              (* os.makedirs(path, exist_ok=True) *)
  | Write (path content : str)         (* open(path, 'w') ... close *)
  | System (command : str) (status : Z). (* os.system(command) *)

Record World := mkWorld {
  fs : gmap str str;      (* the text files, by path *)
  trace : list event      (* the events so far, oldest first *)
}.

Inductive exn :=
  | FileNotFoundError (path : str)
  | UnicodeEncodeError (c : N).   (* the character that cannot be encoded *)

Inductive result (A : Type) :=
  | Returned (a : A)
  | Raised (e : exn).
Arguments Returned {A} a.
Arguments Raised {A} e.

(** A computation: from a world to a result and the world it leaves. *)
Definition IO (A : Type) : Type := World -> result A * World.

#[export] Instance io_ret : MRet IO := fun A a w => (Returned a, w).

#[export] Instance io_bind : MBind IO := fun A B k m w =>
  match m w with
  | (Returned a, w') => k a w'
  | (Raised e, w') => (Raised e, w')
  end.

(** [for x in l: body], threading the variables the body assigns. *)
Fixpoint for_each {A S} (l : list A) (body : S -> A -> IO S) (s : S) : IO S :=
  match l with
  | [] => mret s
  | x :: l' => s' ← body s x; for_each l' body s'
  end.

Definition emit (e : event) : IO unit :=
  fun w => (Returned tt, mkWorld (fs w) (trace w ++ [e])).

Definition print (line : str) : IO unit := emit (Print line).

Definition os_makedirs (path : str) : IO unit := emit (Makedirs path).

(** [open(filename, 'r', encoding='utf-8')] followed by [file.read()]. *)
Definition read_file (filename : str) : IO str :=
  fun w =>
    match fs w !! filename with
    | Some content => (Returned content, w)
    | None => (Raised (FileNotFoundError filename), w)
    end.

(** A computation on a file open for writing: from the text written so
    far to a result and the text written then. *)
Definition FileIO (A : Type) : Type := str -> result A * str.

#[export] Instance file_ret : MRet FileIO := fun A a file => (Returned a, file).

#[export] Instance file_bind : MBind FileIO := fun A B k m file =>
  match m file with
  | (Returned a, file') => k a file'
  | (Raised e, file') => (Raised e, file')
  end.

(** [file.write(s)] on a file opened with [encoding='utf-8']. *)
Definition file_write (s : str) : FileIO unit :=
  fun file =>
    match encode_error s with
    | Some c => (Raised (UnicodeEncodeError c), file)
    | None => (Returned tt, file ++ s)
    end.

(** [for x in l: body] in a [with] block, no variable assigned. *)
Fixpoint file_for {A} (l : list A) (body : A -> FileIO unit) : FileIO unit :=
  match l with
  | [] => mret tt
  | x :: l' => body x;; file_for l' body
  end.

(** A [with open(filename, 'w', encoding='utf-8') as file] block whose
    body only writes to [file]: the file is emptied, the body runs, and
    the text it wrote replaces the file when the block is left, also
    when it is left by an exception, which goes on to the caller. *)
Definition with_open_w (filename : str) (body : FileIO unit) : IO unit :=
  fun w =>
    let '(r, content) := body [] in
    (r, mkWorld (<[filename := content]> (fs w))
                (trace w ++ [Write filename content])).

Definition is_system (e : event) : bool :=
  match e with System _ _ => true | _ => false end.

(** The number of commands run so far. *)
Definition calls (w : World) : nat :=
  length (List.filter is_system (trace w)).

Definition nl : str := [10%N].

(** A [(hex_code, character)] tuple. *)
Abbreviation entry := (str * str)%type.

(** ** The program *)

(** The warning of the [except ValueError] branch. *)
Definition warning (match_ : str) : str :=
  py "Warning: Could not convert " ++ match_ ++ py " to a Unicode character".

(** The body of the loop of [extract_unicode_chars]: the [try] converts
    the group and appends the pair; a [ValueError] of [int] or of [chr]
    lands in the [except] branch, which prints and appends nothing. *)
Definition extract_body (chars : list entry) (match_ : str) : IO (list entry) :=
  match int16 match_ with
  | Some i =>
      match chr i with
      | Some char => mret (chars ++ [(match_, char)])
      | None => print (warning match_);; mret chars
      end
  | None => print (warning match_);; mret chars
  end.

Definition extract_unicode_chars (filename : str) : IO (list entry) :=
  content ← read_file filename;
  let matches := findall content in
  for_each matches extract_body [].

(** The head of the body of the loop of [create_test_file], up to the
    [write]: [None] is the [continue] of an ampersand, otherwise the
    values of [hex_code] and [char] that the [write] formats, [char]
    reassigned for a percent sign. *)
Definition row_of (e : entry) : option entry :=
  let '(hex_code, char) := e in
  if decide (char = py "&") then None
  else
    let char := if decide (char = py "%") then py "\%" else char in
    Some (hex_code, char).

(** [f"U+{hex_code} & {char} \\\\\n"]. *)
Definition row_text (r : entry) : str :=
  py "U+" ++ r.1 ++ py " & " ++ r.2 ++ py " \\" ++ nl.

(** The body of the loop of [create_test_file]. *)
Definition row_body (e : entry) : FileIO unit :=
  match row_of e with
  | None => mret tt
  | Some r => file_write (row_text r)
  end.

(** [f"{n} characters supported, ...\n\n"]. *)
Definition summary_line (n : nat) : str :=
  str_of_nat n ++
  py " characters supported, no more LaTeX Error: Unicode character ... not set up for use with LaTeX."
  ++ nl ++ nl.

(** The body of the [with] block of [create_test_file]. *)
Definition document_body (chars : list entry) : FileIO unit :=
  file_write (py "\documentclass{article}" ++ nl);;
  file_write (py "\usepackage[utf8]{inputenc}" ++ nl);;
  file_write (py "\usepackage{DeclareUnicodeCharacter}" ++ nl ++ nl);;
  file_write (py "\usepackage{longtable}" ++ nl ++ nl);;
  file_write (py "\begin{document}" ++ nl ++ nl);;
  file_write (py "\section*{Unicode Characters Test}" ++ nl ++ nl);;
  file_write (summary_line (length chars));;
  file_write (py "\begin{longtable}{ll}" ++ nl);;
  file_write (py "Hex Code & Character \\" ++ nl ++ py "\hline" ++ nl);;
  file_for chars row_body;;
  file_write (py "\end{longtable}" ++ nl ++ nl);;
  file_write (py "\end{document}" ++ nl).

Definition create_test_file (chars : list entry) (output_filename : str) : IO unit :=
  with_open_w output_filename (document_body chars).

Definition extract_all_unicode_chars (filename : str) : IO unit :=
  let sty_file := py "DeclareUnicodeCharacter.sty" in
  let output_file := py "test-file.tex" in
  chars ← extract_unicode_chars sty_file;
  create_test_file chars output_file;;
  print (py "Successfully extracted " ++ str_of_nat (length chars)
         ++ py " Unicode characters to " ++ output_file).

Section BatchTester.

(** The status that the k-th call of [os.system] of the run returns
    (k from 0, counted over the whole trace). *)
Variable exit_status : nat -> Z.

(** What the command run by that call does to the files: pdflatex
    leaves its [.log], [.aux] and [.pdf] in the output directory. *)
Variable outputs : nat -> gmap str str -> gmap str str.

Definition os_system (command : str) : IO Z :=
  fun w =>
    let status := exit_status (calls w) in
    (Returned status,
     mkWorld (outputs (calls w) (fs w))
             (trace w ++ [System command status])).

(** The body of the loop of [process_unicode_chars_individually]. *)
Definition process_body (output_dir : str)
    (successful_chars : list entry) (char_tuple : entry) : IO (list entry) :=
  let output_file := output_dir ++ py "/test-char-" ++ char_tuple.1 ++ py ".tex" in
  create_test_file [char_tuple] output_file;;
  compile_result ← os_system
    (py "pdflatex -interaction=nonstopmode -output-directory=" ++ output_dir
     ++ py " " ++ output_file);
  if compile_result =? 0 then
    let successful_chars := successful_chars ++ [char_tuple] in
    print (py "Character U+" ++ char_tuple.1 ++ py " (" ++ char_tuple.2
           ++ py ") compiled successfully");;
    mret successful_chars
  else
    print (py "Character U+" ++ char_tuple.1 ++ py " (" ++ char_tuple.2
           ++ py ") failed to compile");;
    mret successful_chars.

Definition process_unicode_chars_individually : IO (list entry) :=
  let sty_file := py "DeclareUnicodeCharacter.sty" in
  let output_dir := py "test_results" in
  os_makedirs output_dir;;
  chars ← extract_unicode_chars sty_file;
  let successful_chars := [] in
  successful_chars ← for_each chars (process_body output_dir) successful_chars;
  match successful_chars with
  | _ :: _ =>
      let final_output := py "successful-chars.tex" in
      create_test_file successful_chars final_output;;
      print (py "Created " ++ final_output ++ py " with "
             ++ str_of_nat (length successful_chars)
             ++ py " successfully compiled characters")
  | [] => mret tt
  end;;
  mret successful_chars.

Definition main : IO unit :=
  process_unicode_chars_individually;; mret tt.

End BatchTester.

(** * The vocabulary of the properties *)

(** A group of the pattern: four characters of [[0-9A-F]]. *)
Definition is_hex4 (g : str) : Prop :=
  length g = 4%nat ∧ Forall (λ c, upper_hex c = true) g.

(** A payload as the lazy star takes it: no closing brace, no line feed. *)
Definition payload_ok (p : str) : Prop :=
  Forall (λ c : N, c ≠ 125%N ∧ c ≠ 10%N) p.

(** The text of one declaration. *)
Definition declaration (g p : str) : str :=
  keyword ++ g ++ py "}{" ++ p ++ py "}".

(** The value of an upper-case hexadecimal digit. *)
Definition digit (c : N) : N :=
  if (c <=? 57)%N then (c - 48)%N else (c - 55)%N.

(** The code point that a string of hexadecimal digits denotes. *)
Definition code_point (g : str) : N :=
  fold_left (λ acc c, (16 * acc + digit c)%N) g 0%N.

(** The entry of a matched group. *)
Definition decode (g : str) : entry := (g, [code_point g]).

(** [m1] ends before [m2] starts. *)
Definition before (m1 m2 : Match) : Prop :=
  (m_start m1 + m_length m1 ≤ m_start m2)%nat.

(** The list that the Extractor returns for a file of text [content]. *)
Definition extracted (content : str) : list entry :=
  map decode (findall content).

(** The rows of the table: what the loop of [create_test_file] formats
    and writes, one [(hex_code, char)] per [write]. *)
Definition table_rows (chars : list entry) : list entry := omap row_of chars.

(** The text of the rows. *)
Definition rows_text (chars : list entry) : str :=
  concat (map row_text (table_rows chars)).

(** The entries whose character is the ampersand. *)
Definition ampersands (chars : list entry) : list entry :=
  filter (λ e, e.2 = py "&") chars.

(** The text of lines, each ended by a line feed. *)
Definition lines (l : list string) : str :=
  concat (map (λ s, py s ++ nl) l).

Definition preamble : str :=
  lines ["\documentclass{article}";
         "\usepackage[utf8]{inputenc}";
         "\usepackage{DeclareUnicodeCharacter}"; "";
         "\usepackage{longtable}"; "";
         "\begin{document}"; "";
         "\section*{Unicode Characters Test}"; ""]%string.

Definition table_head : str :=
  lines ["\begin{longtable}{ll}"; "Hex Code & Character \\"; "\hline"]%string.

Definition closing : str :=
  lines ["\end{longtable}"; ""; "\end{document}"]%string.

(** The whole text of the document of [chars]. *)
Definition document (chars : list entry) : str :=
  preamble ++ summary_line (length chars) ++ table_head
  ++ rows_text chars ++ closing.

(** A string that the [utf-8] codec encodes: it has no surrogate. *)
Definition encodable (s : str) : Prop := encode_error s = None.

(** An entry whose identifier and character can be written to a file. *)
Definition entry_writable (e : entry) : Prop :=
  encodable e.1 ∧ encodable e.2.

(** Entries none of which has a surrogate in its character. *)
Definition no_surrogates (chars : list entry) : Prop :=
  Forall (λ e : entry, encodable e.2) chars.

(** [m], run in [w], returns after writing [doc] to [path] and doing
    nothing else. *)
Definition writes (m : IO unit) (path doc : str) (w : World) : Prop :=
  m w = (Returned tt,
         mkWorld (<[path := doc]> (fs w)) (trace w ++ [Write path doc])).

Definition sty_file : str := py "DeclareUnicodeCharacter.sty".

Definition final_output : str := py "successful-chars.tex".

(** The test document of the entry of identifier [hex_code]. *)
Definition test_file (hex_code : str) : str :=
  py "test_results" ++ py "/test-char-" ++ hex_code ++ py ".tex".

(** The command that compiles it. *)
Definition command (hex_code : str) : str :=
  py "pdflatex -interaction=nonstopmode -output-directory=" ++ py "test_results"
  ++ py " " ++ test_file hex_code.

(** The status line of an entry. *)
Definition status_line (e : entry) (ok : bool) : str :=
  py "Character U+" ++ e.1 ++ py " (" ++ e.2
  ++ (if ok then py ") compiled successfully" else py ") failed to compile").

(** The summary line of the run. *)
Definition created_line (n : nat) : str :=
  py "Created " ++ final_output ++ py " with " ++ str_of_nat n
  ++ py " successfully compiled characters".

Section Outcomes.

Variable exit_status : nat -> Z.
Variable outputs : nat -> gmap str str -> gmap str str.

(** The entries of [chars] whose compilation returns status zero, when
    the first of them is compiled by the k-th call of [os.system]. *)
Fixpoint successes (k : nat) (chars : list entry) : list entry :=
  match chars with
  | [] => []
  | e :: chars' =>
      if exit_status k =? 0 then e :: successes (S k) chars'
      else successes (S k) chars'
  end.

(** What testing one entry does: its document, its compilation, its
    status line. *)
Definition entry_events (k : nat) (e : entry) : list event :=
  [Write (test_file e.1) (document [e]);
   System (command e.1) (exit_status k);
   Print (status_line e (exit_status k =? 0))].

Fixpoint loop_events (k : nat) (chars : list entry) : list event :=
  match chars with
  | [] => []
  | e :: chars' => entry_events k e ++ loop_events (S k) chars'
  end.

(** The files after the loop, when the first entry of [chars] is
    compiled by the k-th call of [os.system]: for each entry in turn its
    test document is written, then the command does what it does. *)
Fixpoint loop_files (k : nat) (chars : list entry) (files : gmap str str)
  : gmap str str :=
  match chars with
  | [] => files
  | e :: chars' =>
      loop_files (S k) chars'
        (outputs k (<[test_file e.1 := document [e]]> files))
  end.

(** What the end of the run does, given the successful entries. *)
Definition final_events (successful_chars : list entry) : list event :=
  match successful_chars with
  | [] => []
  | _ :: _ =>
      [Write final_output (document successful_chars);
       Print (created_line (length successful_chars))]
  end.

Definition final_files (successful_chars : list entry) (files : gmap str str)
  : gmap str str :=
  match successful_chars with
  | [] => files
  | _ :: _ => <[final_output := document successful_chars]> files
  end.

(** The entries whose compilation returns another status. *)
Fixpoint failures (k : nat) (chars : list entry) : list entry :=
  match chars with
  | [] => []
  | e :: chars' =>
      if exit_status k =? 0 then failures (S k) chars'
      else e :: failures (S k) chars'
  end.

End Outcomes.

(** [pat] occurs somewhere in [s]. *)
Fixpoint occurs (pat s : str) : bool :=
  match match_literal pat s with
  | Some _ => true
  | None =>
      match s with
      | [] => false
      | _ :: s' => occurs pat s'
      end
  end.

(** One item of a declaration file: some text without the keyword, then
    a declaration. *)
Record Item := mkItem {
  i_before : str;
  i_group : str;
  i_payload : str
}.

Definition item_text (it : Item) : str :=
  i_before it ++ declaration (i_group it) (i_payload it).

Definition item_ok (it : Item) : Prop :=
  occurs keyword (i_before it) = false
  ∧ is_hex4 (i_group it) ∧ payload_ok (i_payload it).

(** The text of a file made of items and of a last piece of text. *)
Definition layout (items : list Item) (last_text : str) : str :=
  concat (map item_text items) ++ last_text.

(** The row that the Document Generator writes for the entry of a
    matched group, [None] if it writes none. *)
Definition row_of_group (g : str) : option entry :=
  if decide (g = py "0026") then None
  else Some (g, if decide (g = py "0025") then py "\%" else [code_point g]).

(** The output file of [extract_all_unicode_chars]. *)
Definition test_output : str := py "test-file.tex".

(** The line that [extract_all_unicode_chars] prints. *)
Definition extracted_line (n : nat) : str :=
  py "Successfully extracted " ++ str_of_nat n
  ++ py " Unicode characters to " ++ test_output.

(** ** Sample inputs *)

(** A declaration file with a letter, an ampersand and a percent sign,
    some text between them. *)
Definition sample_content : str :=
  py "% sample" ++ nl
  ++ py "\DeclareUnicodeCharacter{0041}{A}" ++ nl
  ++ py "\DeclareUnicodeCharacter{0026}{\&}" ++ nl
  ++ py "\DeclareUnicodeCharacter{0025}{\%}" ++ nl.

Definition sample_world : World :=
  mkWorld {[ sty_file := sample_content ]} [].

(** A declaration file with a letter and a surrogate. *)
Definition surrogate_content : str :=
  py "\DeclareUnicodeCharacter{0041}{A}" ++ nl
  ++ py "\DeclareUnicodeCharacter{D800}{x}" ++ nl.

Definition surrogate_world : World :=
  mkWorld {[ sty_file := surrogate_content ]} [].

(** Two declarations, nothing else. *)
Definition two_letters_world : World :=
  mkWorld {[ sty_file := py "\DeclareUnicodeCharacter{0041}{A}"
                         ++ py "\DeclareUnicodeCharacter{0042}{B}" ]} [].

(** The second compilation fails, the others succeed. *)
Definition fail_second (k : nat) : Z := if (k =? 1)%nat then 256 else 0.

(** A file of two items: a comment line and a letter, a command and
    the ampersand. *)
Definition sample_items : list Item :=
  [mkItem (py "% letters" ++ nl) (py "0041") (py "A");
   mkItem (nl ++ py "\RequirePackage{x}" ++ nl) (py "0026") (py "\&")].

(** No compilation succeeds, as when pdflatex is missing. *)
Definition fail_all (k : nat) : Z := 32512.

(** Every compilation succeeds. *)
Definition pass_all (k : nat) : Z := 0.

(** A world with no declaration file. *)
Definition empty_world : World := mkWorld ∅ [].

(** Each command leaves a log file in the output directory. *)
Definition log_outputs (k : nat) (files : gmap str str) : gmap str str :=
  <[py "test_results/texput.log" := py "This is pdfTeX"]> files.

(** A declaration file with a surrogate between two letters. *)
Definition surrogate_between : str :=
  py "\DeclareUnicodeCharacter{0041}{A}"
  ++ py "\DeclareUnicodeCharacter{D800}{x}"
  ++ py "\DeclareUnicodeCharacter{0042}{B}".


(** The declarations of a text, read from left to right: at each place
    either the text starts with a declaration, which is taken with its
    group and payload, and the reading goes on after it, or it does
    not, and the reading goes on one character further. *)
Inductive declarations_of : str -> list (str * str) -> Prop :=
  | decls_end : declarations_of [] []
  | decls_skip c s ds :
      (∀ g p r, is_hex4 g → payload_ok p → c :: s ≠ declaration g p ++ r) →
      declarations_of s ds →
      declarations_of (c :: s) ds
  | decls_here g p rest ds :
      is_hex4 g → payload_ok p →
      declarations_of rest ds →
      declarations_of (declaration g p ++ rest) ((g, p) :: ds).

(** * Properties *)

(** ** The pattern *)

Lemma match_literal_Some lit s r :
  match_literal lit s = Some r ↔ s = lit ++ r.
Proof.
  revert s. induction lit as [|a lit IH]; intros s; simpl.
  - split; [intros [= ->]|intros ->]; reflexivity.
  - destruct s as [|b s]; [split; intros; discriminate|].
    destruct (N.eqb_spec a b) as [->|Hne].
    + rewrite IH. split; [intros ->; reflexivity|intros [= ->]; reflexivity].
    + split; [discriminate|intros [= <- _]; congruence].
Qed.

Lemma match_hex_Some n s g r :
  match_hex n s = Some (g, r) →
  s = g ++ r ∧ length g = n ∧ Forall (λ c, upper_hex c = true) g.
Proof.
  revert s g r. induction n as [|n IH]; intros s g r; simpl.
  - intros [= <- <-]. repeat split. constructor.
  - destruct s as [|c s]; [discriminate|].
    destruct (upper_hex c) eqn:Hc; [|discriminate].
    destruct (match_hex n s) as [[g' r']|] eqn:Hm; [|discriminate].
    intros [= <- <-]. destruct (IH _ _ _ Hm) as (-> & <- & Hall).
    repeat split. constructor; assumption.
Qed.

Lemma match_hex_group g r :
  Forall (λ c, upper_hex c = true) g →
  match_hex (length g) (g ++ r) = Some (g, r).
Proof.
  induction 1 as [|c g Hc _ IH]; simpl; [reflexivity|].
  rewrite Hc, IH. reflexivity.
Qed.

Lemma match_payload_Some s n :
  match_payload s = Some n →
  ∃ p r, s = p ++ 125%N :: r ∧ payload_ok p ∧ n = S (length p).
Proof.
  revert n. induction s as [|c s IH]; intros n; simpl; [discriminate|].
  destruct (N.eqb_spec c 125) as [->|H125].
  - intros [= <-]. exists [], s. repeat split. constructor.
  - destruct (N.eqb_spec c 10) as [->|H10]; [discriminate|].
    destruct (match_payload s) as [m|]; [|discriminate].
    intros [= <-]. destruct (IH m eq_refl) as (p & r & -> & Hp & ->).
    exists (c :: p), r. repeat split. constructor; [split|]; assumption.
Qed.

Lemma match_payload_brace p r :
  payload_ok p → match_payload (p ++ 125%N :: r) = Some (S (length p)).
Proof.
  induction 1 as [|c p [H125 H10] _ IH]; simpl; [reflexivity|].
  destruct (N.eqb_spec c 125); [contradiction|].
  destruct (N.eqb_spec c 10); [contradiction|].
  rewrite IH. reflexivity.
Qed.

(** What a match at the head of [s] says about [s]. *)
Lemma match_here_Some s g n :
  match_here s = Some (g, n) →
  ∃ p r, s = declaration g p ++ r ∧ is_hex4 g ∧ payload_ok p
         ∧ n = length (declaration g p).
Proof.
  unfold match_here.
  destruct (match_literal keyword s) as [s1|] eqn:H1; [|discriminate].
  destruct (match_hex 4 s1) as [[g' s2]|] eqn:H2; [|discriminate].
  destruct (match_literal (py "}{") s2) as [s3|] eqn:H3; [|discriminate].
  destruct (match_payload s3) as [m|] eqn:H4; [|discriminate].
  intros [= -> <-].
  apply match_literal_Some in H1. apply match_literal_Some in H3.
  apply match_hex_Some in H2. destruct H2 as (-> & Hlen & Hall).
  apply match_payload_Some in H4. destruct H4 as (p & r & -> & Hp & ->).
  subst. exists p, r. split; [|split; [split; assumption|split; [assumption|]]].
  - unfold declaration. rewrite <- !app_assoc. reflexivity.
  - unfold declaration. rewrite !length_app, Hlen. simpl. lia.
Qed.

(** A declaration at the head of the subject is matched, whole. *)
Lemma match_here_declaration g p r :
  is_hex4 g → payload_ok p →
  match_here (declaration g p ++ r) = Some (g, length (declaration g p)).
Proof.
  intros [Hlen Hall] Hp. unfold match_here, declaration.
  rewrite <- !app_assoc.
  assert (H1 : match_literal keyword
                 (keyword ++ g ++ py "}{" ++ p ++ py "}" ++ r)
               = Some (g ++ py "}{" ++ p ++ py "}" ++ r))
    by (apply match_literal_Some; reflexivity).
  rewrite H1, <- Hlen, match_hex_group by assumption.
  assert (H3 : match_literal (py "}{") (py "}{" ++ p ++ py "}" ++ r)
               = Some (p ++ py "}" ++ r))
    by (apply match_literal_Some; reflexivity).
  rewrite H3. change (py "}" ++ r) with (125%N :: r).
  rewrite match_payload_brace by assumption.
  f_equal. f_equal. rewrite !length_app. simpl. lia.
Qed.

(** The digits of a group are hexadecimal digits for [int], and their
    value is the code point, below 65536. *)
Lemma int16_digits_hex g acc :
  Forall (λ c, upper_hex c = true) g →
  int16_digits acc g
  = Some (fold_left (λ a c, 16 * a + Z.of_N (digit c)) g acc).
Proof.
  intros Hall. revert acc. induction Hall as [|c g Hc _ IH]; intros acc; simpl.
  - reflexivity.
  - unfold upper_hex in Hc. unfold hex_digit_value, digit.
    destruct ((48 <=? c)%N && (c <=? 57)%N) eqn:E1.
    + apply andb_true_iff in E1 as [Ha Hb].
      rewrite Hb. rewrite IH. do 2 f_equal.
      apply N.leb_le in Ha. lia.
    + simpl in Hc. rewrite Hc.
      apply andb_true_iff in Hc as [Ha Hb]. apply N.leb_le in Ha.
      destruct (N.leb_spec c 57); [lia|].
      rewrite IH. do 2 f_equal. lia.
Qed.

Lemma digit_bound c : upper_hex c = true → (digit c < 16)%N.
Proof.
  unfold upper_hex, digit. intros H.
  apply orb_true_iff in H as [H|H]; apply andb_true_iff in H as [Ha Hb];
    apply N.leb_le in Ha; apply N.leb_le in Hb;
    destruct (N.leb_spec c 57); lia.
Qed.

Lemma fold_digits_Z g acc :
  fold_left (λ a c, 16 * a + Z.of_N (digit c)) g (Z.of_N acc)
  = Z.of_N (fold_left (λ a c, (16 * a + digit c)%N) g acc).
Proof.
  revert acc. induction g as [|c g IH]; intros acc; simpl; [reflexivity|].
  rewrite <- IH. f_equal. lia.
Qed.

Lemma code_point_bound g : is_hex4 g → (code_point g < 65536)%N.
Proof.
  intros [Hlen Hall]. unfold code_point.
  destruct g as [|a [|b [|c [|d [|]]]]]; try discriminate.
  inversion_clear Hall as [|? ? Ha Hall1]. inversion_clear Hall1 as [|? ? Hb Hall2].
  inversion_clear Hall2 as [|? ? Hc Hall3]. inversion_clear Hall3 as [|? ? Hd _].
  apply digit_bound in Ha, Hb, Hc, Hd. simpl. lia.
Qed.

(** On a group, neither [int] nor [chr] raises. *)
Lemma int16_group g : is_hex4 g → int16 g = Some (Z.of_N (code_point g)).
Proof.
  intros [Hlen Hall]. unfold int16.
  destruct g as [|c g]; [discriminate|].
  rewrite int16_digits_hex by assumption.
  f_equal. apply (fold_digits_Z (c :: g) 0).
Qed.

Lemma chr_group g : is_hex4 g → chr (Z.of_N (code_point g)) = Some [code_point g].
Proof.
  intros H. apply code_point_bound in H. unfold chr.
  destruct (Z.leb_spec 0 (Z.of_N (code_point g))); [|lia].
  destruct (Z.leb_spec (Z.of_N (code_point g)) 1114111); [|lia].
  simpl. rewrite N2Z.id. reflexivity.
Qed.

(** ** The scan *)

Lemma declaration_length g p : (1 ≤ length (declaration g p))%nat.
Proof. unfold declaration. rewrite length_app. simpl. lia. Qed.

Lemma match_here_length s g n : match_here s = Some (g, n) → (1 ≤ n)%nat.
Proof.
  intros H. apply match_here_Some in H as (p & r & _ & _ & _ & ->).
  apply declaration_length.
Qed.

(** Stepping over [skip] characters is dropping them. *)
Lemma scan_skip pos skip s :
  scan pos skip s = scan (pos + skip) 0 (drop skip s).
Proof.
  revert pos skip. induction s as [|c s IH]; intros pos skip.
  - rewrite drop_nil. reflexivity.
  - destruct skip as [|k].
    + rewrite Nat.add_0_r. reflexivity.
    + simpl. rewrite IH. f_equal. lia.
Qed.

(** After a match the scan resumes at its end. *)
Lemma scan_match pos s g n :
  match_here s = Some (g, n) →
  scan pos 0 s = mkMatch pos g n :: scan (pos + n) 0 (drop n s).
Proof.
  intros H. pose proof (match_here_length _ _ _ H) as Hn.
  destruct s as [|c s]; [discriminate|].
  cbn [scan]. rewrite H. f_equal. rewrite scan_skip.
  destruct n as [|n]; [lia|]. simpl. rewrite Nat.sub_0_r.
  f_equal. lia.
Qed.

(** After a failure it resumes one character further. *)
Lemma scan_no_match pos c s :
  match_here (c :: s) = None → scan pos 0 (c :: s) = scan (S pos) 0 s.
Proof. intros H. cbn [scan]. rewrite H. reflexivity. Qed.

(** Every match of the scan is a match of the pattern where it starts. *)
Lemma scan_sound pos skip s m :
  m ∈ scan pos skip s →
  (pos + skip ≤ m_start m)%nat
  ∧ match_here (drop (m_start m - pos) s) = Some (m_group m, m_length m).
Proof.
  revert pos skip. induction s as [|c s IH]; intros pos skip Hin.
  - apply elem_of_nil in Hin. contradiction.
  - assert (Hstep : ∀ k, m ∈ scan (S pos) k s →
              (pos + S k ≤ m_start m)%nat
              ∧ match_here (drop (m_start m - pos) (c :: s))
                = Some (m_group m, m_length m)).
    { intros k Hk. apply IH in Hk as [Hle Hm]. split; [lia|].
      replace (m_start m - pos)%nat with (S (m_start m - S pos)) by lia.
      exact Hm. }
    cbn [scan] in Hin. destruct skip as [|k].
    + destruct (match_here (c :: s)) as [[g n]|] eqn:Hm.
      * apply elem_of_cons in Hin as [->|Hin].
        -- simpl. rewrite Nat.sub_diag, Nat.add_0_r. split; [lia|exact Hm].
        -- apply Hstep in Hin as [Hle ?]. split; [lia|assumption].
      * apply Hstep in Hin as [Hle ?]. split; [lia|assumption].
    + apply Hstep in Hin. exact Hin.
Qed.

(** The matches come in the order of the text and do not overlap. *)
Lemma scan_sorted pos skip s : StronglySorted before (scan pos skip s).
Proof.
  revert pos skip. induction s as [|c s IH]; intros pos skip.
  - constructor.
  - cbn [scan]. destruct skip as [|k]; [|apply IH].
    destruct (match_here (c :: s)) as [[g n]|] eqn:Hm; [|apply IH].
    constructor; [apply IH|].
    apply Forall_forall. intros m Hin.
    apply scan_sound in Hin as [Hle _].
    apply match_here_length in Hm. unfold before. simpl. lia.
Qed.

(** Nothing the pattern matches is missed, except what starts inside a
    match found earlier: the matches of the scan do not overlap. *)
Lemma scan_complete pos skip s p g n :
  (skip ≤ p)%nat →
  match_here (drop p s) = Some (g, n) →
  mkMatch (pos + p) g n ∈ scan pos skip s
  ∨ ∃ m, m ∈ scan pos skip s
         ∧ (m_start m < pos + p < m_start m + m_length m)%nat.
Proof.
  revert pos skip p. induction s as [|c s IH]; intros pos skip p Hle Hm.
  - rewrite drop_nil in Hm. discriminate.
  - assert (Hstep : ∀ k q, (k ≤ q)%nat → p = S q →
              mkMatch (pos + p) g n ∈ scan (S pos) k s
              ∨ ∃ m, m ∈ scan (S pos) k s
                   ∧ (m_start m < pos + p < m_start m + m_length m)%nat).
    { intros k q Hk ->. simpl in Hm.
      destruct (IH (S pos) k q Hk Hm) as [Hin|(m & Hin & Hlt)].
      - left. replace (pos + S q)%nat with (S pos + q)%nat by lia. exact Hin.
      - right. exists m. split; [exact Hin|lia]. }
    cbn [scan]. destruct skip as [|k].
    + destruct p as [|q].
      * simpl in Hm. rewrite Hm, Nat.add_0_r. left. apply list_elem_of_here.
      * destruct (match_here (c :: s)) as [[g' n']|] eqn:Hm'.
        -- destruct (Nat.le_gt_cases (n' - 1) q) as [Hq|Hq].
           ++ destruct (Hstep (n' - 1)%nat q Hq eq_refl) as [Hin|(m & Hin & Hlt)].
              ** left. apply list_elem_of_further. exact Hin.
              ** right. exists m. split; [apply list_elem_of_further; exact Hin|lia].
           ++ right. exists (mkMatch pos g' n'). split; [apply list_elem_of_here|].
              simpl. lia.
        -- apply (Hstep 0%nat q); [lia|reflexivity].
    + destruct p as [|q]; [lia|]. apply (Hstep k q); [lia|reflexivity].
Qed.

(** The groups that [findall] returns are groups of the pattern. *)
Lemma finditer_hex4 content m : m ∈ finditer content → is_hex4 (m_group m).
Proof.
  intros Hin. apply scan_sound in Hin as [_ Hm].
  apply match_here_Some in Hm as (p & r & _ & H & _). exact H.
Qed.

Lemma findall_hex4 content : Forall is_hex4 (findall content).
Proof.
  unfold findall. apply Forall_forall. intros g Hin.
  apply list_elem_of_In, in_map_iff in Hin as (m & <- & Hin).
  apply list_elem_of_In in Hin. eapply finditer_hex4, Hin.
Qed.

(** ** Computations *)

Lemma bind_Returned {A B} (m : IO A) (k : A → IO B) w a w' :
  m w = (Returned a, w') → (m ≫= k) w = k a w'.
Proof. intros H. unfold mbind, io_bind. rewrite H. reflexivity. Qed.

Lemma bind_Raised {A B} (m : IO A) (k : A → IO B) w e w' :
  m w = (Raised e, w') → (m ≫= k) w = (Raised e, w').
Proof. intros H. unfold mbind, io_bind. rewrite H. reflexivity. Qed.

(** ** The Extractor *)

(** On a group the [try] succeeds: the pair is appended, nothing is
    printed. *)
Lemma extract_body_group chars g w :
  is_hex4 g → extract_body chars g w = (Returned (chars ++ [decode g]), w).
Proof.
  intros Hg. unfold extract_body.
  rewrite (int16_group g Hg), (chr_group g Hg). reflexivity.
Qed.

Lemma extract_loop gs chars w :
  Forall is_hex4 gs →
  for_each gs extract_body chars w = (Returned (chars ++ map decode gs), w).
Proof.
  intros Hall. revert chars. induction Hall as [|g gs Hg _ IH]; intros chars.
  - simpl. rewrite app_nil_r. reflexivity.
  - cbn [for_each].
    rewrite (bind_Returned _ _ _ _ _ (extract_body_group chars g w Hg)).
    rewrite IH, <- app_assoc. reflexivity.
Qed.

Lemma extract_unicode_chars_spec filename content w :
  fs w !! filename = Some content →
  extract_unicode_chars filename w = (Returned (extracted content), w).
Proof.
  intros Hf. unfold extract_unicode_chars.
  erewrite bind_Returned by (unfold read_file; rewrite Hf; reflexivity).
  apply (extract_loop _ []), findall_hex4.
Qed.

Lemma extract_unicode_chars_missing filename w :
  fs w !! filename = None →
  extract_unicode_chars filename w = (Raised (FileNotFoundError filename), w).
Proof.
  intros Hf. unfold extract_unicode_chars.
  apply bind_Raised. unfold read_file. rewrite Hf. reflexivity.
Qed.


Lemma scan_sorted_start pos skip s :
  StronglySorted (λ m1 m2, (m_start m1 < m_start m2)%nat) (scan pos skip s).
Proof.
  revert pos skip. induction s as [|c s IH]; intros pos skip.
  - constructor.
  - cbn [scan]. destruct skip as [|k]; [|apply IH].
    destruct (match_here (c :: s)) as [[g n]|] eqn:Hm; [|apply IH].
    constructor; [apply IH|].
    apply Forall_forall. intros m Hin.
    apply scan_sound in Hin as [Hle _]. simpl. lia.
Qed.

(** The groups do not depend on where the count of positions starts. *)
Lemma scan_groups pos pos' skip s :
  map m_group (scan pos skip s) = map m_group (scan pos' skip s).
Proof.
  revert pos pos' skip. induction s as [|c s IH]; intros pos pos' skip.
  - reflexivity.
  - cbn [scan]. destruct skip as [|k]; [|apply IH].
    destruct (match_here (c :: s)) as [[g n]|]; [|apply IH].
    simpl. f_equal. apply IH.
Qed.

(** A declaration at the head of the text gives the first entry; the
    rest of the text gives the others. *)
Lemma extracted_declaration g p rest :
  is_hex4 g → payload_ok p →
  extracted (declaration g p ++ rest) = decode g :: extracted rest.
Proof.
  intros Hg Hp. unfold extracted, findall, finditer.
  rewrite (scan_match 0 _ _ _ (match_here_declaration g p rest Hg Hp)).
  rewrite drop_app_length. simpl.
  rewrite (scan_groups _ 0%nat). reflexivity.
Qed.

(** The same declaration [n] times over gives [n] equal entries. *)
Lemma extracted_repeat g p n rest :
  is_hex4 g → payload_ok p →
  extracted (concat (replicate n (declaration g p)) ++ rest)
  = replicate n (decode g) ++ extracted rest.
Proof.
  intros Hg Hp. induction n as [|n IH]; [reflexivity|].
  cbn [replicate concat]. rewrite <- app_assoc.
  rewrite extracted_declaration, IH by assumption. reflexivity.
Qed.

(** What the pattern matches somewhere in the text gives an entry,
    unless it starts inside an earlier match. *)
Lemma extracted_complete content p g n :
  match_here (drop p content) = Some (g, n) →
  decode g ∈ extracted content
  ∨ ∃ m, m ∈ finditer content ∧ (m_start m < p < m_start m + m_length m)%nat.
Proof.
  intros Hm.
  destruct (scan_complete 0 0 content p g n (Nat.le_0_l p) Hm) as [Hin|Hin].
  - left. unfold extracted, findall. rewrite map_map.
    apply list_elem_of_In, in_map_iff. exists (mkMatch p g n).
    split; [reflexivity|]. apply list_elem_of_In. exact Hin.
  - right. exact Hin.
Qed.

(** ** The Document Generator *)

Lemma file_bind_Returned {A B} (m : FileIO A) (k : A → FileIO B) file a file' :
  m file = (Returned a, file') → (m ≫= k) file = k a file'.
Proof. intros H. unfold mbind, file_bind. rewrite H. reflexivity. Qed.

Lemma file_bind_Raised {A B} (m : FileIO A) (k : A → FileIO B) file e file' :
  m file = (Raised e, file') → (m ≫= k) file = (Raised e, file').
Proof. intros H. unfold mbind, file_bind. rewrite H. reflexivity. Qed.

Lemma file_write_encodable s file :
  encodable s → file_write s file = (Returned tt, file ++ s).
Proof. unfold encodable, file_write. intros ->. reflexivity. Qed.

Lemma encodable_app a b : encodable a → encodable b → encodable (a ++ b).
Proof.
  unfold encodable, encode_error. intros Ha Hb.
  induction a as [|c a IH]; [exact Hb|].
  simpl in *. destruct (is_surrogate c); [discriminate|apply IH, Ha].
Qed.

(** An ASCII literal has no surrogate. *)
Lemma encodable_py s : encodable (py s).
Proof.
  unfold encodable, encode_error, py.
  induction (list_ascii_of_string s) as [|a l IH]; [reflexivity|].
  cbn [map List.find].
  assert (Ha : is_surrogate (N_of_ascii a) = false).
  { pose proof (N_ascii_bounded a) as Hb. unfold is_surrogate.
    destruct (N.leb_spec 55296 (N_of_ascii a)); [lia|reflexivity]. }
  rewrite Ha. exact IH.
Qed.

Lemma encodable_nl : encodable nl.
Proof. reflexivity. Qed.

Lemma encodable_summary_line n : encodable (summary_line n).
Proof.
  unfold summary_line, str_of_nat.
  repeat apply encodable_app; first [apply encodable_py|apply encodable_nl].
Qed.

Lemma upper_hex_not_surrogate c : upper_hex c = true → is_surrogate c = false.
Proof.
  unfold upper_hex, is_surrogate. intros H.
  apply orb_true_iff in H as [H|H]; apply andb_true_iff in H as [_ Hb];
    apply N.leb_le in Hb; destruct (N.leb_spec 55296 c); try lia; reflexivity.
Qed.

(** The identifier of an extracted entry has no surrogate. *)
Lemma encodable_hex4 g : is_hex4 g → encodable g.
Proof.
  intros [_ Hall]. unfold encodable, encode_error.
  induction Hall as [|c g Hc _ IH]; [reflexivity|].
  simpl. rewrite (upper_hex_not_surrogate c Hc). exact IH.
Qed.

(** The row of a writable entry can be written. *)
Lemma encodable_row e r :
  entry_writable e → row_of e = Some r → encodable (row_text r).
Proof.
  destruct e as [h c]. intros [Hh Hc]. unfold row_of.
  destruct (decide (c = py "&")); [discriminate|]. intros [= <-].
  unfold row_text. cbn [fst snd] in *.
  repeat apply encodable_app;
    try first [apply encodable_py|apply encodable_nl|assumption].
  destruct (decide (c = py "%")); [apply encodable_py|assumption].
Qed.

Lemma row_body_Some e r : row_of e = Some r → row_body e = file_write (row_text r).
Proof. unfold row_body. intros ->. reflexivity. Qed.

Lemma row_body_None e : row_of e = None → row_body e = mret tt.
Proof. unfold row_body. intros ->. reflexivity. Qed.

Lemma row_loop chars file :
  Forall entry_writable chars →
  file_for chars row_body file = (Returned tt, file ++ rows_text chars).
Proof.
  unfold rows_text, table_rows. intros Hall. revert file.
  induction Hall as [|e chars He _ IH]; intros file.
  - simpl. rewrite app_nil_r. reflexivity.
  - cbn [file_for omap list_omap].
    destruct (row_of e) as [r|] eqn:Hr.
    + rewrite (row_body_Some e r Hr).
      erewrite file_bind_Returned
        by (apply file_write_encodable; eapply encodable_row; eassumption).
      rewrite IH. cbn [map concat]. rewrite <- app_assoc. reflexivity.
    + rewrite (row_body_None e Hr).
      erewrite file_bind_Returned by reflexivity. apply IH.
Qed.

(** The writes of the body, all of them, when the entries are
    writable. *)
Lemma document_body_writable chars :
  Forall entry_writable chars →
  document_body chars [] = (Returned tt, document chars).
Proof.
  intros Hall. unfold document_body.
  repeat (erewrite file_bind_Returned;
          [|first [apply file_write_encodable;
                   first [apply encodable_summary_line|reflexivity]
                  |apply row_loop; exact Hall]]).
  rewrite file_write_encodable by reflexivity.
  unfold document, preamble, table_head, closing, lines. cbn [map concat].
  repeat rewrite <- app_assoc. reflexivity.
Qed.

Lemma create_test_file_writes chars output_filename w :
  Forall entry_writable chars →
  writes (create_test_file chars output_filename) output_filename
         (document chars) w.
Proof.
  intros Hall. unfold writes, create_test_file, with_open_w.
  rewrite (document_body_writable chars Hall). reflexivity.
Qed.

(** What is written when a row cannot be: the text up to that row, and
    the exception goes on to the caller. *)
Lemma create_test_file_raises l1 e r c l2 output_filename w :
  Forall entry_writable l1 →
  row_of e = Some r →
  encode_error (row_text r) = Some c →
  create_test_file (l1 ++ e :: l2) output_filename w
  = (Raised (UnicodeEncodeError c),
     mkWorld
       (<[output_filename :=
            preamble ++ summary_line (length (l1 ++ e :: l2)) ++ table_head
            ++ rows_text l1]> (fs w))
       (trace w
        ++ [Write output_filename
              (preamble ++ summary_line (length (l1 ++ e :: l2))
               ++ table_head ++ rows_text l1)])).
Proof.
  intros Hall Hr Hc. unfold create_test_file, with_open_w.
  assert (Hloop : ∀ file,
            file_for (l1 ++ e :: l2) row_body file
            = (Raised (UnicodeEncodeError c), file ++ rows_text l1)).
  { unfold rows_text, table_rows. induction Hall as [|x l Hx _ IH]; intros file.
    - cbn [app file_for omap list_omap map concat]. rewrite app_nil_r.
      apply file_bind_Raised. rewrite (row_body_Some e r Hr).
      unfold file_write. rewrite Hc. reflexivity.
    - cbn [app file_for omap list_omap].
      destruct (row_of x) as [rx|] eqn:Hrx.
      + rewrite (row_body_Some x rx Hrx).
        erewrite file_bind_Returned
          by (apply file_write_encodable; eapply encodable_row; eassumption).
        rewrite IH. cbn [map concat]. rewrite <- app_assoc. reflexivity.
      + rewrite (row_body_None x Hrx).
        erewrite file_bind_Returned by reflexivity. apply IH. }
  assert (Hbody : document_body (l1 ++ e :: l2) []
            = (Raised (UnicodeEncodeError c),
               preamble ++ summary_line (length (l1 ++ e :: l2)) ++ table_head
               ++ rows_text l1)).
  { unfold document_body.
    repeat (erewrite file_bind_Returned;
            [|apply file_write_encodable;
              first [apply encodable_summary_line|reflexivity]]).
    erewrite file_bind_Raised by apply Hloop.
    unfold preamble, table_head, lines. cbn [map concat].
    repeat rewrite <- app_assoc. reflexivity. }
  rewrite Hbody. reflexivity.
Qed.

Lemma row_of_None e : row_of e = None ↔ e.2 = py "&".
Proof.
  destruct e as [h c]. unfold row_of. simpl.
  destruct (decide (c = py "&")); split; intros; congruence.
Qed.

Lemma row_of_field e r : row_of e = Some r → r.2 ≠ py "&".
Proof.
  destruct e as [h c]. unfold row_of.
  destruct (decide (c = py "&")); [discriminate|].
  intros [= <-]. simpl. destruct (decide (c = py "%")); [discriminate|assumption].
Qed.

Lemma table_rows_app l1 l2 : table_rows (l1 ++ l2) = table_rows l1 ++ table_rows l2.
Proof. apply omap_app. Qed.

Lemma rows_text_app l1 l2 : rows_text (l1 ++ l2) = rows_text l1 ++ rows_text l2.
Proof. unfold rows_text. rewrite table_rows_app, map_app, concat_app. reflexivity. Qed.

(** Every entry is either written as a row or an ampersand skipped. *)
Lemma rows_and_ampersands chars :
  length chars = (length (table_rows chars) + length (ampersands chars))%nat.
Proof.
  unfold table_rows, ampersands. induction chars as [|e chars IH]; [reflexivity|].
  rewrite filter_cons. cbn [omap list_omap].
  destruct (row_of e) as [r|] eqn:Hr.
  - apply row_of_field in Hr as Hne.
    assert (e.2 ≠ py "&") by (intros Ha; apply row_of_None in Ha; congruence).
    rewrite decide_False by assumption. simpl. lia.
  - apply row_of_None in Hr. rewrite decide_True by assumption.
    simpl. lia.
Qed.

(** ** The Batch Tester *)

Section BatchTesterProperties.

Variable exit_status : nat -> Z.
Variable outputs : nat -> gmap str str -> gmap str str.

Lemma calls_snoc files t e :
  calls (mkWorld files (t ++ [e]))
  = (calls (mkWorld files t) + if is_system e then 1 else 0)%nat.
Proof.
  unfold calls. simpl. rewrite List.filter_app, length_app. simpl.
  destruct (is_system e); reflexivity.
Qed.

Lemma successes_Forall (P : entry → Prop) k chars :
  Forall P chars → Forall P (successes exit_status k chars).
Proof.
  intros Hall. revert k. induction Hall as [|e chars He _ IH]; intros k.
  - constructor.
  - cbn [successes]. destruct (exit_status k =? 0); [constructor; [exact He|]|];
      apply IH.
Qed.

(** The entries of a file can be written when none of their characters
    is a surrogate. *)
Lemma extracted_writable content :
  no_surrogates (extracted content) → Forall entry_writable (extracted content).
Proof.
  unfold no_surrogates, extracted. pose proof (findall_hex4 content) as Hall.
  induction Hall as [|g gs Hg _ IH]; intros Hs; [constructor|].
  cbn [map] in *. apply Forall_cons_1 in Hs as [Hc Hs].
  constructor; [|apply IH, Hs].
  split; [apply encodable_hex4, Hg|exact Hc].
Qed.

Lemma process_body_spec successful_chars e w :
  entry_writable e →
  process_body exit_status outputs (py "test_results") successful_chars e w
  = (Returned (if exit_status (calls w) =? 0
               then successful_chars ++ [e] else successful_chars),
     mkWorld (outputs (calls w) (<[test_file e.1 := document [e]]> (fs w)))
             (trace w ++ entry_events exit_status (calls w) e)).
Proof.
  intros He. unfold process_body.
  erewrite bind_Returned
    by (apply create_test_file_writes; constructor; [exact He|constructor]).
  unfold os_system at 1. unfold mbind at 1, io_bind at 1.
  rewrite calls_snoc. cbn [is_system]. rewrite Nat.add_0_r.
  change (calls (mkWorld _ (trace w))) with (calls w).
  unfold entry_events, status_line.
  destruct (exit_status (calls w) =? 0);
    unfold print, emit, mbind, io_bind, mret, io_ret; cbn [fs trace];
    rewrite <- !app_assoc; reflexivity.
Qed.

Lemma process_loop chars successful_chars w :
  Forall entry_writable chars →
  for_each chars (process_body exit_status outputs (py "test_results"))
    successful_chars w
  = (Returned (successful_chars ++ successes exit_status (calls w) chars),
     mkWorld (loop_files outputs (calls w) chars (fs w))
             (trace w ++ loop_events exit_status (calls w) chars)).
Proof.
  intros Hall. revert successful_chars w.
  induction Hall as [|e chars He _ IH]; intros successful_chars w.
  - simpl. rewrite !app_nil_r. destruct w. reflexivity.
  - cbn [for_each].
    rewrite (bind_Returned _ _ _ _ _ (process_body_spec successful_chars e w He)).
    rewrite IH. cbn [fs trace].
    assert (Hc : calls (mkWorld
                          (outputs (calls w)
                             (<[test_file e.1 := document [e]]> (fs w)))
                          (trace w ++ entry_events exit_status (calls w) e))
                 = S (calls w)).
    { unfold calls, entry_events. cbn [trace].
      rewrite List.filter_app, length_app. cbn [List.filter is_system length]. lia. }
    rewrite Hc. cbn [successes loop_events loop_files].
    rewrite <- !app_assoc.
    destruct (exit_status (calls w) =? 0); rewrite <- ?app_assoc; reflexivity.
Qed.

(** The whole run, on a declaration file of text [content] none of whose
    entries has a surrogate for its character. *)
Lemma process_spec content w :
  fs w !! sty_file = Some content →
  no_surrogates (extracted content) →
  process_unicode_chars_individually exit_status outputs w
  = (Returned (successes exit_status (calls w) (extracted content)),
     mkWorld
       (final_files (successes exit_status (calls w) (extracted content))
          (loop_files outputs (calls w) (extracted content) (fs w)))
       (trace w ++ [Makedirs (py "test_results")]
        ++ loop_events exit_status (calls w) (extracted content)
        ++ final_events (successes exit_status (calls w) (extracted content)))).
Proof.
  intros Hf Hs. apply extracted_writable in Hs.
  unfold process_unicode_chars_individually.
  unfold os_makedirs, emit. unfold mbind at 1, io_bind at 1.
  set (w1 := mkWorld (fs w) (trace w ++ [Makedirs (py "test_results")])).
  assert (Hc : calls w1 = calls w).
  { unfold w1. rewrite calls_snoc. cbn [is_system]. rewrite Nat.add_0_r.
    reflexivity. }
  erewrite bind_Returned
    by (apply (extract_unicode_chars_spec _ content); exact Hf).
  erewrite bind_Returned by (apply process_loop; exact Hs).
  rewrite Hc. cbn [app].
  pose proof (successes_Forall entry_writable (calls w) _ Hs) as Hw.
  destruct (successes exit_status (calls w) (extracted content)) as [|e l] eqn:Hsucc.
  - unfold mbind, io_bind, mret, io_ret. cbn [final_files final_events].
    unfold w1. cbn [fs trace]. rewrite app_nil_r, <- app_assoc. reflexivity.
  - erewrite bind_Returned.
    2:{ erewrite bind_Returned by (apply create_test_file_writes; exact Hw).
        unfold print, emit. reflexivity. }
    unfold mret, io_ret, w1. cbn [fs trace final_files final_events].
    rewrite <- !app_assoc. reflexivity.
Qed.

Lemma process_missing w :
  fs w !! sty_file = None →
  process_unicode_chars_individually exit_status outputs w
  = (Raised (FileNotFoundError sty_file),
     mkWorld (fs w) (trace w ++ [Makedirs (py "test_results")])).
Proof.
  intros Hf. unfold process_unicode_chars_individually.
  unfold os_makedirs, emit. unfold mbind at 1, io_bind at 1.
  erewrite bind_Raised; [reflexivity|].
  apply extract_unicode_chars_missing. exact Hf.
Qed.

End BatchTesterProperties.

(** ** The events of a run *)

Section BatchTesterEvents.

Variable exit_status : nat -> Z.

Lemma test_file_ne hex_code : test_file hex_code ≠ final_output.
Proof. discriminate. Qed.

Lemma successes_sublist k chars : sublist (successes exit_status k chars) chars.
Proof.
  revert k. induction chars as [|e chars IH]; intros k; simpl.
  - constructor.
  - destruct (exit_status k =? 0); constructor; apply IH.
Qed.

Lemma successes_failures k chars :
  length chars
  = (length (successes exit_status k chars) + length (failures exit_status k chars))%nat.
Proof.
  revert k. induction chars as [|e chars IH]; intros k; simpl; [reflexivity|].
  destruct (exit_status k =? 0); simpl; rewrite (IH (S k)); lia.
Qed.

(** An entry is among the successes exit_status exactly when one of its
    occurrences was compiled with status zero. *)
Lemma elem_of_successes k chars e :
  e ∈ successes exit_status k chars
  ↔ ∃ i, chars !! i = Some e ∧ exit_status (k + i) = 0.
Proof.
  revert k. induction chars as [|x chars IH]; intros k; simpl.
  - split; [intros H; apply elem_of_nil in H; contradiction|].
    intros (i & Hi & _). discriminate.
  - assert (Htail : e ∈ successes exit_status (S k) chars
              ↔ ∃ i, (x :: chars) !! S i = Some e ∧ exit_status (k + S i) = 0).
    { rewrite IH. split; intros (i & Hi & Hs); exists i; split; try exact Hi;
        [replace (k + S i)%nat with (S k + i)%nat by lia
        |replace (S k + i)%nat with (k + S i)%nat by lia]; exact Hs. }
    destruct (Z.eqb_spec (exit_status k) 0) as [Hz|Hnz].
    + rewrite elem_of_cons, Htail. split.
      * intros [->|(i & Hi)]; [exists 0%nat|exists (S i); exact Hi].
        split; [reflexivity|rewrite Nat.add_0_r; exact Hz].
      * intros ([|i] & Hi & Hs); [left; injection Hi as ->; reflexivity|].
        right. exists i. split; assumption.
    + rewrite Htail. split.
      * intros (i & Hi). exists (S i). exact Hi.
      * intros ([|i] & Hi & Hs); [rewrite Nat.add_0_r in Hs; contradiction|].
        exists i. split; assumption.
Qed.

(** The commands of the loop: one per entry, in the order of the
    entries. *)
Lemma loop_commands k chars :
  List.filter is_system (loop_events exit_status k chars)
  = imap (λ i e, System (command e.1) (exit_status (k + i))) chars.
Proof.
  revert k. induction chars as [|e chars IH]; intros k; [reflexivity|].
  cbn [loop_events]. rewrite List.filter_app. unfold entry_events.
  cbn [List.filter is_system app]. rewrite IH, imap_cons, Nat.add_0_r.
  f_equal. apply imap_ext. intros i x _. simpl. f_equal. f_equal. lia.
Qed.

Lemma loop_no_final_write k chars doc :
  Write final_output doc ∉ loop_events exit_status k chars.
Proof.
  revert k. induction chars as [|e chars IH]; intros k; cbn [loop_events].
  - apply not_elem_of_nil.
  - unfold entry_events. intros Hin.
    apply elem_of_app in Hin as [Hin|Hin]; [|exact (IH _ Hin)].
    repeat (apply elem_of_cons in Hin as [Hin|Hin]; [discriminate Hin|]).
    apply elem_of_nil in Hin. exact Hin.
Qed.

Lemma loop_status_lines k chars i e :
  chars !! i = Some e →
  Print (status_line e (exit_status (k + i) =? 0))
  ∈ loop_events exit_status k chars.
Proof.
  revert k i. induction chars as [|x chars IH]; intros k i Hi; [discriminate|].
  cbn [loop_events]. apply elem_of_app. destruct i as [|i].
  - injection Hi as ->. left. rewrite Nat.add_0_r. unfold entry_events.
    do 2 apply list_elem_of_further. apply list_elem_of_here.
  - right. replace (k + S i)%nat with (S k + i)%nat by lia. apply IH. exact Hi.
Qed.

End BatchTesterEvents.

(** * Further properties *)

(** ** What the pattern matches and what it does not *)

(** X1: the pattern matches at the head of a text exactly when the text
    starts with a declaration: the keyword, four characters of
    [[0-9A-F]], a closing and an opening brace, a payload without
    closing brace and without line feed, and a closing brace; the group
    is the four characters and the match is that declaration, which
    ends at the first closing brace of the payload. *)
Theorem pattern_matches_declarations s g n :
  match_here s = Some (g, n)
  ↔ ∃ p r, s = declaration g p ++ r ∧ is_hex4 g ∧ payload_ok p
           ∧ n = length (declaration g p).
Proof.
  split.
  - apply match_here_Some.
  - intros (p & r & -> & Hg & Hp & ->). apply match_here_declaration; assumption.
Qed.

Lemma match_start_declaration content m :
  m ∈ finditer content →
  ∃ p r, drop (m_start m) content = declaration (m_group m) p ++ r
         ∧ is_hex4 (m_group m) ∧ payload_ok p
         ∧ m_length m = length (declaration (m_group m) p).
Proof.
  intros Hin. apply scan_sound in Hin as [_ Hm]. rewrite Nat.sub_0_r in Hm.
  apply match_here_Some in Hm. exact Hm.
Qed.

Lemma declaration_head g r g' p' r' :
  length g = 4%nat → length g' = 4%nat →
  keyword ++ g ++ r = declaration g' p' ++ r' →
  g = g' ∧ r = py "}{" ++ p' ++ py "}" ++ r'.
Proof.
  intros Hg Hg' H. unfold declaration in H. rewrite <- !app_assoc in H.
  apply app_inv_head in H. apply app_inj_1 in H; [exact H|congruence].
Qed.

(** X2: a declaration whose braced identifier has a character outside
    [[0-9A-F]], a lower-case digit for one, is no match: no match of the
    scan starts at it. *)
Theorem no_match_on_other_digits content pre g rest :
  content = pre ++ keyword ++ g ++ rest →
  length g = 4%nat →
  ¬ Forall (λ c, upper_hex c = true) g →
  Forall (λ m, m_start m ≠ length pre) (finditer content).
Proof.
  intros -> Hlen Hnot. apply Forall_forall. intros m Hin Hstart.
  apply match_start_declaration in Hin as (p & r & Hd & [Hlen' Hall] & _).
  rewrite Hstart, drop_app_length in Hd.
  apply declaration_head in Hd as [-> _]; [|assumption..].
  contradiction.
Qed.

Lemma no_match_on_other_digits_witness :
  py "\DeclareUnicodeCharacter{00e9}{e}\DeclareUnicodeCharacter{00C9}{E}"
  = [] ++ keyword ++ py "00e9" ++ py "}{e}\DeclareUnicodeCharacter{00C9}{E}"
  ∧ length (py "00e9") = 4%nat
  ∧ ¬ Forall (λ c, upper_hex c = true) (py "00e9")
  ∧ Forall (λ m, m_start m ≠ length (@nil N))
      (finditer
         (py "\DeclareUnicodeCharacter{00e9}{e}\DeclareUnicodeCharacter{00C9}{E}")).
Proof.
  assert (H : ¬ Forall (λ c, upper_hex c = true) (py "00e9")).
  { intros H. apply Forall_cons_1 in H as [_ H]. apply Forall_cons_1 in H as [_ H].
    apply Forall_cons_1 in H as [H _]. vm_compute in H. discriminate. }
  split; [reflexivity|]. split; [reflexivity|]. split; [exact H|].
  exact (no_match_on_other_digits
           (py "\DeclareUnicodeCharacter{00e9}{e}\DeclareUnicodeCharacter{00C9}{E}")
           [] (py "00e9") (py "}{e}\DeclareUnicodeCharacter{00C9}{E}")
           eq_refl eq_refl H).
Defined.

(** X3: a declaration with a fifth hexadecimal digit in its identifier,
    a code point above FFFF, is no match: no match of the scan starts at
    it. *)
Theorem no_match_on_five_digits content pre g c rest :
  content = pre ++ keyword ++ g ++ c :: rest →
  is_hex4 g →
  upper_hex c = true →
  Forall (λ m, m_start m ≠ length pre) (finditer content).
Proof.
  intros -> [Hlen _] Hc. apply Forall_forall. intros m Hin Hstart.
  apply match_start_declaration in Hin as (p & r & Hd & [Hlen' _] & _).
  rewrite Hstart, drop_app_length in Hd.
  apply declaration_head in Hd as [_ Hr]; [|assumption..].
  injection Hr as -> _. vm_compute in Hc. discriminate.
Qed.

Lemma no_match_on_five_digits_witness :
  py "\DeclareUnicodeCharacter{1F600}{x}\DeclareUnicodeCharacter{00C9}{E}"
  = [] ++ keyword ++ py "1F60"
    ++ 48%N :: py "}{x}\DeclareUnicodeCharacter{00C9}{E}"
  ∧ is_hex4 (py "1F60")
  ∧ upper_hex 48 = true
  ∧ Forall (λ m, m_start m ≠ length (@nil N))
      (finditer
         (py "\DeclareUnicodeCharacter{1F600}{x}\DeclareUnicodeCharacter{00C9}{E}")).
Proof.
  assert (H : is_hex4 (py "1F60")).
  { split; [reflexivity|]. repeat constructor. }
  split; [reflexivity|]. split; [exact H|]. split; [reflexivity|].
  exact (no_match_on_five_digits
           (py "\DeclareUnicodeCharacter{1F600}{x}\DeclareUnicodeCharacter{00C9}{E}")
           [] (py "1F60") 48%N (py "}{x}\DeclareUnicodeCharacter{00C9}{E}")
           eq_refl H eq_refl).
Defined.

Lemma match_payload_line_feed p rest :
  payload_ok p → match_payload (p ++ 10%N :: rest) = None.
Proof.
  induction 1 as [|c p [H125 H10] _ IH]; simpl; [reflexivity|].
  destruct (N.eqb_spec c 125); [contradiction|].
  destruct (N.eqb_spec c 10); [contradiction|].
  rewrite IH. reflexivity.
Qed.

(** X4: a declaration whose payload runs over the end of the line
    before its closing brace is no match: no match of the scan starts at
    it. *)
Theorem no_match_across_lines content pre g p rest :
  content = pre ++ keyword ++ g ++ py "}{" ++ p ++ 10%N :: rest →
  is_hex4 g →
  payload_ok p →
  Forall (λ m, m_start m ≠ length pre) (finditer content).
Proof.
  intros -> [Hlen Hall] Hp. apply Forall_forall. intros m Hin Hstart.
  apply scan_sound in Hin as [_ Hm]. rewrite Nat.sub_0_r in Hm.
  rewrite Hstart, drop_app_length in Hm.
  unfold match_here in Hm.
  assert (H1 : match_literal keyword
                 (keyword ++ g ++ py "}{" ++ p ++ 10%N :: rest)
               = Some (g ++ py "}{" ++ p ++ 10%N :: rest))
    by (apply match_literal_Some; reflexivity).
  rewrite H1, <- Hlen, match_hex_group in Hm by assumption.
  assert (H3 : match_literal (py "}{") (py "}{" ++ p ++ 10%N :: rest)
               = Some (p ++ 10%N :: rest))
    by (apply match_literal_Some; reflexivity).
  rewrite H3, match_payload_line_feed in Hm by assumption.
  discriminate.
Qed.

Lemma no_match_across_lines_witness :
  py "\DeclareUnicodeCharacter{0041}{A" ++ nl
  ++ py "}\DeclareUnicodeCharacter{00C9}{E}"
  = [] ++ keyword ++ py "0041" ++ py "}{" ++ py "A"
    ++ 10%N :: py "}\DeclareUnicodeCharacter{00C9}{E}"
  ∧ is_hex4 (py "0041")
  ∧ payload_ok (py "A")
  ∧ Forall (λ m, m_start m ≠ length (@nil N))
      (finditer (py "\DeclareUnicodeCharacter{0041}{A" ++ nl
                 ++ py "}\DeclareUnicodeCharacter{00C9}{E}")).
Proof.
  assert (H : is_hex4 (py "0041")).
  { split; [reflexivity|]. repeat constructor. }
  assert (Hp : payload_ok (py "A")).
  { repeat constructor; discriminate. }
  split; [reflexivity|]. split; [exact H|]. split; [exact Hp|].
  exact (no_match_across_lines
           (py "\DeclareUnicodeCharacter{0041}{A" ++ nl
            ++ py "}\DeclareUnicodeCharacter{00C9}{E}")
           [] (py "0041") (py "A") (py "}\DeclareUnicodeCharacter{00C9}{E}")
           eq_refl H Hp).
Defined.

(** X5: the matches of the scan lie inside the text, each is at least
    32 characters long, and each ends before the next starts: they do
    not overlap. *)
Theorem matches_do_not_overlap content :
  StronglySorted before (finditer content)
  ∧ ∀ m, m ∈ finditer content →
         (32 ≤ m_length m)%nat
         ∧ (m_start m + m_length m ≤ length content)%nat.
Proof.
  split; [apply scan_sorted|].
  intros m Hin.
  apply match_start_declaration in Hin as (p & r & Hd & [Hlen _] & _ & Hn).
  assert (Hl : length (drop (m_start m) content)
               = (m_length m + length r)%nat)
    by (rewrite Hd, length_app, Hn; reflexivity).
  rewrite length_drop in Hl.
  assert (32 ≤ m_length m)%nat.
  { rewrite Hn. unfold declaration. rewrite !length_app, Hlen. simpl. lia. }
  split; [assumption|lia].
Qed.

(** ** What the Extractor finds *)

Lemma occurs_cons pat c s :
  occurs pat (c :: s)
  = match match_literal pat (c :: s) with
    | Some _ => true
    | None => occurs pat s
    end.
Proof. reflexivity. Qed.

(** A text in which [pat] is found somewhere has an occurrence of it. *)
Lemma occurs_true pat pre post : occurs pat (pre ++ pat ++ post) = true.
Proof.
  assert (Hhead : ∀ s, match_literal pat (pat ++ s) = Some s)
    by (intros s; apply match_literal_Some; reflexivity).
  induction pre as [|c pre IH].
  - simpl app. destruct (pat ++ post) as [|c s] eqn:E.
    + simpl. rewrite <- E, Hhead. reflexivity.
    + rewrite occurs_cons, <- E, Hhead. reflexivity.
  - simpl app. rewrite occurs_cons, IH.
    destruct (match_literal pat (c :: pre ++ pat ++ post)); reflexivity.
Qed.

(** A literal that matches over the end of [a] but not inside [a] has,
    at the place where [a] ends, the character that follows [a]. *)
Lemma match_literal_straddle lit a rest s1 :
  match_literal lit (a ++ rest) = Some s1 →
  match_literal lit a = None →
  ∃ x, head rest = Some x ∧ lit !! length a = Some x.
Proof.
  revert a. induction lit as [|x lit IH]; intros a Hm Hn; [discriminate|].
  destruct a as [|b a].
  - simpl in Hm. destruct rest as [|y rest]; [discriminate|].
    destruct (N.eqb_spec x y) as [->|]; [|discriminate].
    exists y. split; reflexivity.
  - simpl in Hm, Hn. destruct (N.eqb_spec x b) as [->|]; [|discriminate].
    apply (IH a Hm Hn).
Qed.

(** The keyword has its only backslash in front. *)
Lemma keyword_backslash i : keyword !! S i ≠ Some 92%N.
Proof.
  assert (H : Forall (λ c : N, c ≠ 92%N) (drop 1 keyword))
    by (repeat constructor; discriminate).
  intros Hi. rewrite Forall_lookup in H. apply (H i 92%N); [|reflexivity].
  rewrite lookup_drop. exact Hi.
Qed.

(** Text without the keyword, before the end of the file or before a
    backslash, gives no entry. *)
Lemma extracted_skip junk rest :
  occurs keyword junk = false →
  rest = [] ∨ head rest = Some 92%N →
  extracted (junk ++ rest) = extracted rest.
Proof.
  intros Hocc Hrest. induction junk as [|c junk IH]; [reflexivity|].
  rewrite occurs_cons in Hocc.
  destruct (match_literal keyword (c :: junk)) eqn:Hn; [discriminate|].
  assert (Hm : match_here (c :: junk ++ rest) = None).
  { unfold match_here.
    destruct (match_literal keyword (c :: junk ++ rest)) as [s1|] eqn:Hs;
      [|reflexivity].
    destruct (match_literal_straddle keyword (c :: junk) rest s1 Hs Hn)
      as (x & Hx & Hk).
    destruct Hrest as [->|Hr]; [discriminate|].
    rewrite Hr in Hx. injection Hx as <-.
    apply keyword_backslash in Hk. contradiction. }
  rewrite <- (IH Hocc). unfold extracted, findall, finditer. simpl app.
  rewrite (scan_no_match 0 _ _ Hm), (scan_groups 1 0). reflexivity.
Qed.

Lemma extracted_nil : extracted [] = [].
Proof. reflexivity. Qed.

Lemma extracted_layout items last_text :
  Forall item_ok items →
  occurs keyword last_text = false →
  extracted (layout items last_text) = map (λ it, decode (i_group it)) items.
Proof.
  intros Hitems Hlast. unfold layout.
  induction Hitems as [|it items (Hb & Hg & Hp) _ IH].
  - simpl. rewrite <- (app_nil_r last_text), extracted_skip by auto.
    apply extracted_nil.
  - cbn [map concat]. unfold item_text at 1. rewrite <- !app_assoc.
    rewrite extracted_skip; [|exact Hb|right; reflexivity].
    rewrite extracted_declaration by assumption.
    rewrite IH. reflexivity.
Qed.

Lemma finditer_without_keyword content :
  occurs keyword content = false → finditer content = [].
Proof.
  intros Hocc. destruct (finditer content) as [|m ms] eqn:E; [reflexivity|].
  assert (Hin : m ∈ finditer content) by (rewrite E; apply list_elem_of_here).
  apply match_start_declaration in Hin as (p & r & Hd & _).
  rewrite <- (take_drop (m_start m) content), Hd in Hocc.
  unfold declaration in Hocc. rewrite <- !app_assoc in Hocc.
  rewrite occurs_true in Hocc. discriminate.
Qed.

(** X6: a declaration of the file gives an entry, unless it starts
    inside an earlier match of the scan. *)
Theorem declaration_gives_entry filename content w pre g p post :
  fs w !! filename = Some content →
  content = pre ++ declaration g p ++ post →
  is_hex4 g →
  payload_ok p →
  Forall (λ m, ¬ (m_start m < length pre < m_start m + m_length m)%nat)
    (finditer content) →
  ∃ chars,
    extract_unicode_chars filename w = (Returned chars, w)
    ∧ (g, [code_point g]) ∈ chars.
Proof.
  intros Hf -> Hg Hp Hfree. exists (extracted (pre ++ declaration g p ++ post)).
  split; [apply extract_unicode_chars_spec; exact Hf|].
  destruct (extracted_complete (pre ++ declaration g p ++ post) (length pre) g
              (length (declaration g p))) as [Hin|(m & Hin & Hover)].
  - rewrite drop_app_length. apply match_here_declaration; assumption.
  - exact Hin.
  - rewrite Forall_forall in Hfree. destruct (Hfree m Hin Hover).
Qed.

Lemma declaration_gives_entry_witness :
  fs sample_world !! sty_file = Some sample_content
  ∧ sample_content
    = (py "% sample" ++ nl) ++ declaration (py "0041") (py "A")
      ++ (nl ++ py "\DeclareUnicodeCharacter{0026}{\&}" ++ nl
          ++ py "\DeclareUnicodeCharacter{0025}{\%}" ++ nl)
  ∧ is_hex4 (py "0041")
  ∧ payload_ok (py "A")
  ∧ Forall (λ m, ¬ (m_start m < length (py "% sample" ++ nl)
                    < m_start m + m_length m)%nat)
      (finditer sample_content)
  ∧ ∃ chars,
      extract_unicode_chars sty_file sample_world = (Returned chars, sample_world)
      ∧ (py "0041", [code_point (py "0041")]) ∈ chars.
Proof.
  assert (Hf : fs sample_world !! sty_file = Some sample_content)
    by (vm_compute; reflexivity).
  assert (Hc : sample_content
    = (py "% sample" ++ nl) ++ declaration (py "0041") (py "A")
      ++ (nl ++ py "\DeclareUnicodeCharacter{0026}{\&}" ++ nl
          ++ py "\DeclareUnicodeCharacter{0025}{\%}" ++ nl))
    by reflexivity.
  assert (Hg : is_hex4 (py "0041")).
  { split; [reflexivity|]. repeat constructor. }
  assert (Hp : payload_ok (py "A")).
  { repeat constructor; discriminate. }
  assert (Hfree : Forall (λ m, ¬ (m_start m < length (py "% sample" ++ nl)
                                 < m_start m + m_length m)%nat)
                    (finditer sample_content)).
  { assert (E : finditer sample_content
                = [mkMatch 9 (py "0041") 33; mkMatch 43 (py "0026") 34;
                   mkMatch 78 (py "0025") 34]) by (vm_compute; reflexivity).
    rewrite E. repeat constructor; simpl; lia. }
  split; [exact Hf|]. split; [exact Hc|]. split; [exact Hg|].
  split; [exact Hp|]. split; [exact Hfree|].
  exact (declaration_gives_entry sty_file sample_content sample_world _ _ _ _
           Hf Hc Hg Hp Hfree).
Defined.

(** X7: a file in which the keyword does not occur gives the empty
    list: the Extractor returns it, prints nothing and raises nothing. *)
Theorem no_keyword_no_entry filename content w :
  fs w !! filename = Some content →
  occurs keyword content = false →
  extract_unicode_chars filename w = (Returned [], w).
Proof.
  intros Hf Hocc. rewrite (extract_unicode_chars_spec _ _ _ Hf).
  unfold extracted, findall. rewrite finditer_without_keyword by assumption.
  reflexivity.
Qed.

Lemma no_keyword_no_entry_witness :
  fs (mkWorld {[ sty_file := py "\ProvidesPackage{DeclareUnicodeCharacter}" ]} [])
    !! sty_file
  = Some (py "\ProvidesPackage{DeclareUnicodeCharacter}")
  ∧ occurs keyword (py "\ProvidesPackage{DeclareUnicodeCharacter}") = false
  ∧ extract_unicode_chars sty_file
      (mkWorld {[ sty_file := py "\ProvidesPackage{DeclareUnicodeCharacter}" ]} [])
    = (Returned [],
       mkWorld {[ sty_file := py "\ProvidesPackage{DeclareUnicodeCharacter}" ]} []).
Proof.
  split; [vm_compute; reflexivity|]. split; [vm_compute; reflexivity|].
  apply (no_keyword_no_entry sty_file
           (py "\ProvidesPackage{DeclareUnicodeCharacter}"));
    vm_compute; reflexivity.
Defined.

(** X8: of a file made of declarations, each after text in which the
    keyword does not occur, with such text at the end, the Extractor
    returns the entries of the declarations, all of them, in the order
    of the file. *)
Theorem file_of_declarations filename items last_text w :
  fs w !! filename = Some (layout items last_text) →
  Forall item_ok items →
  occurs keyword last_text = false →
  extract_unicode_chars filename w
  = (Returned (map (λ it, (i_group it, [code_point (i_group it)])) items), w).
Proof.
  intros Hf Hitems Hlast. rewrite (extract_unicode_chars_spec _ _ _ Hf).
  rewrite extracted_layout by assumption. reflexivity.
Qed.

Lemma file_of_declarations_witness :
  fs (mkWorld {[ sty_file := layout sample_items nl ]} []) !! sty_file
  = Some (layout sample_items nl)
  ∧ Forall item_ok sample_items
  ∧ occurs keyword nl = false
  ∧ extract_unicode_chars sty_file
      (mkWorld {[ sty_file := layout sample_items nl ]} [])
    = (Returned (map (λ it, (i_group it, [code_point (i_group it)])) sample_items),
       mkWorld {[ sty_file := layout sample_items nl ]} []).
Proof.
  assert (Hitems : Forall item_ok sample_items).
  { repeat constructor; try discriminate. }
  split; [vm_compute; reflexivity|]. split; [exact Hitems|].
  split; [reflexivity|].
  apply (file_of_declarations sty_file sample_items nl);
    [vm_compute; reflexivity|exact Hitems|reflexivity].
Defined.

(** ** What the entries are *)

Lemma upper_hex_range c :
  upper_hex c = true → (48 ≤ c ≤ 57 ∨ 65 ≤ c ≤ 70)%N.
Proof.
  unfold upper_hex. intros H.
  apply orb_true_iff in H as [H|H]; apply andb_true_iff in H as [Ha Hb];
    apply N.leb_le in Ha; apply N.leb_le in Hb; lia.
Qed.

Lemma digit_inj c1 c2 :
  upper_hex c1 = true → upper_hex c2 = true → digit c1 = digit c2 → c1 = c2.
Proof.
  intros H1 H2. apply upper_hex_range in H1, H2. unfold digit.
  destruct (N.leb_spec c1 57), (N.leb_spec c2 57); lia.
Qed.

(** Two groups of the same code point are the same group. *)
Lemma code_point_inj g1 g2 :
  is_hex4 g1 → is_hex4 g2 → code_point g1 = code_point g2 → g1 = g2.
Proof.
  intros [Hl1 Ha1] [Hl2 Ha2].
  destruct g1 as [|a1 [|b1 [|c1 [|d1 [|]]]]]; try discriminate.
  destruct g2 as [|a2 [|b2 [|c2 [|d2 [|]]]]]; try discriminate.
  inversion_clear Ha1 as [|? ? Ua1 Ha]. inversion_clear Ha as [|? ? Ub1 Hb].
  inversion_clear Hb as [|? ? Uc1 Hc]. inversion_clear Hc as [|? ? Ud1 _].
  inversion_clear Ha2 as [|? ? Ua2 Ha]. inversion_clear Ha as [|? ? Ub2 Hb].
  inversion_clear Hb as [|? ? Uc2 Hc]. inversion_clear Hc as [|? ? Ud2 _].
  pose proof (digit_bound _ Ua1). pose proof (digit_bound _ Ub1).
  pose proof (digit_bound _ Uc1). pose proof (digit_bound _ Ud1).
  pose proof (digit_bound _ Ua2). pose proof (digit_bound _ Ub2).
  pose proof (digit_bound _ Uc2). pose proof (digit_bound _ Ud2).
  unfold code_point. simpl. intros E.
  assert (digit a1 = digit a2 ∧ digit b1 = digit b2
          ∧ digit c1 = digit c2 ∧ digit d1 = digit d2) as (Ea & Eb & Ec & Ed)
    by lia.
  apply digit_inj in Ea, Eb, Ec, Ed; try assumption. congruence.
Qed.

Lemma extracted_entry content e :
  e ∈ extracted content → is_hex4 e.1 ∧ e.2 = [code_point e.1].
Proof.
  intros He. unfold extracted in He.
  apply list_elem_of_In, in_map_iff in He as (g & <- & Hg).
  pose proof (findall_hex4 content) as Hall. rewrite Forall_forall in Hall.
  split; [apply Hall, list_elem_of_In, Hg|reflexivity].
Qed.

(** X9: every entry that the Extractor returns has an identifier of
    four characters of [[0-9A-F]] and a character string of the one code
    point that the identifier denotes, which is below 65536. *)
Theorem entries_are_bmp_code_points filename content w :
  fs w !! filename = Some content →
  ∃ chars,
    extract_unicode_chars filename w = (Returned chars, w)
    ∧ Forall (λ e : entry,
                is_hex4 e.1 ∧ e.2 = [code_point e.1]
                ∧ (code_point e.1 < 65536)%N) chars.
Proof.
  intros Hf. exists (extracted content).
  split; [apply extract_unicode_chars_spec; exact Hf|].
  apply Forall_forall. intros e He.
  apply extracted_entry in He as [Hg Hc].
  split; [exact Hg|]. split; [exact Hc|]. apply code_point_bound. exact Hg.
Qed.

Lemma entries_are_bmp_code_points_witness :
  fs sample_world !! sty_file = Some sample_content
  ∧ ∃ chars,
      extract_unicode_chars sty_file sample_world = (Returned chars, sample_world)
      ∧ Forall (λ e : entry,
                  is_hex4 e.1 ∧ e.2 = [code_point e.1]
                  ∧ (code_point e.1 < 65536)%N) chars.
Proof.
  split; [vm_compute; reflexivity|].
  apply (entries_are_bmp_code_points sty_file sample_content sample_world).
  vm_compute. reflexivity.
Defined.

(** X10: two entries that the Extractor returns with the same character
    have the same identifier: they are equal. *)
Theorem same_character_same_entry filename content w :
  fs w !! filename = Some content →
  ∃ chars,
    extract_unicode_chars filename w = (Returned chars, w)
    ∧ ∀ e1 e2 : entry, e1 ∈ chars → e2 ∈ chars → e1.2 = e2.2 → e1 = e2.
Proof.
  intros Hf. exists (extracted content).
  split; [apply extract_unicode_chars_spec; exact Hf|].
  intros [h1 c1] [h2 c2] H1 H2 Hc.
  apply extracted_entry in H1 as [Hg1 E1], H2 as [Hg2 E2].
  simpl in *. subst c1 c2. injection Hc as Hc.
  rewrite (code_point_inj h1 h2 Hg1 Hg2 Hc). reflexivity.
Qed.

Lemma same_character_same_entry_witness :
  fs sample_world !! sty_file = Some sample_content
  ∧ ∃ chars,
      extract_unicode_chars sty_file sample_world = (Returned chars, sample_world)
      ∧ ∀ e1 e2 : entry, e1 ∈ chars → e2 ∈ chars → e1.2 = e2.2 → e1 = e2.
Proof.
  split; [vm_compute; reflexivity|].
  apply (same_character_same_entry sty_file sample_content sample_world).
  vm_compute. reflexivity.
Defined.

Lemma row_of_decode g : is_hex4 g → row_of (decode g) = row_of_group g.
Proof.
  intros Hg. unfold row_of_group.
  assert (Hamp : is_hex4 (py "0026")) by (split; [reflexivity|repeat constructor]).
  assert (Hper : is_hex4 (py "0025")) by (split; [reflexivity|repeat constructor]).
  destruct (decide (g = py "0026")) as [->|Hne]; [reflexivity|].
  destruct (decide (g = py "0025")) as [->|Hne']; [reflexivity|].
  assert (H38 : [code_point g] ≠ py "&").
  { change (py "&") with [code_point (py "0026")]. intros E. apply Hne.
    apply code_point_inj; [assumption..|congruence]. }
  assert (H37 : [code_point g] ≠ py "%").
  { change (py "%") with [code_point (py "0025")]. intros E. apply Hne'.
    apply code_point_inj; [assumption..|congruence]. }
  unfold row_of, decode. rewrite !decide_False by assumption. reflexivity.
Qed.

Lemma rows_of_groups gs :
  Forall is_hex4 gs → omap row_of (map decode gs) = omap row_of_group gs.
Proof.
  induction 1 as [|g gs Hg _ IH]; [reflexivity|].
  cbn [map omap list_omap]. rewrite (row_of_decode g Hg), IH. reflexivity.
Qed.

Lemma rows_of_groups_length gs :
  length (omap row_of_group gs)
  = (length gs - length (filter (λ g, g = py "0026") gs))%nat.
Proof.
  induction gs as [|g gs IH]; [reflexivity|].
  assert (Hle : (length (filter (λ g, g = py "0026") gs) ≤ length gs)%nat)
    by apply length_filter.
  cbn [omap list_omap]. rewrite filter_cons. unfold row_of_group at 1.
  destruct (decide (g = py "0026")); cbn [length]; rewrite IH; lia.
Qed.

(** An entry as the Extractor makes it. *)
Lemma table_rows_decoded (l : list entry) :
  Forall (λ e : entry, is_hex4 e.1 ∧ e.2 = [code_point e.1]) l →
  table_rows l = omap row_of_group (map fst l).
Proof.
  unfold table_rows. induction 1 as [|[h c] l [Hh Hc] _ IH]; [reflexivity|].
  cbn [map omap list_omap fst]. cbn [fst snd] in Hh, Hc. subst c.
  change (h, [code_point h]) with (decode h).
  rewrite (row_of_decode h Hh), IH. reflexivity.
Qed.

Lemma extracted_decoded content :
  Forall (λ e : entry, is_hex4 e.1 ∧ e.2 = [code_point e.1]) (extracted content).
Proof. apply Forall_forall. intros e He. apply (extracted_entry content), He. Qed.

(** The sample file has no surrogate. *)
Lemma sample_no_surrogates : no_surrogates (extracted sample_content).
Proof.
  assert (E : extracted sample_content
              = [(py "0041", py "A"); (py "0026", py "&"); (py "0025", py "%")])
    by (vm_compute; reflexivity).
  unfold no_surrogates. rewrite E. repeat constructor.
Qed.

(** X11: of the entries that the Extractor returns, when none has a
    surrogate for its character, the Document Generator writes a
    document whose table leaves out those of identifier 0026 and no
    other, has those of identifier 0025, and no other, with the escaped
    percent sign, and has every other one with its character, in the
    order of the entries. *)
Theorem rows_of_extracted_entries filename content w output_filename w' :
  fs w !! filename = Some content →
  no_surrogates (extracted content) →
  ∃ chars,
    extract_unicode_chars filename w = (Returned chars, w)
    ∧ writes (create_test_file chars output_filename) output_filename
        (preamble ++ summary_line (length chars) ++ table_head
         ++ concat (map row_text (omap row_of_group (map fst chars)))
         ++ closing) w'.
Proof.
  intros Hf Hs. exists (extracted content).
  split; [apply extract_unicode_chars_spec; exact Hf|].
  rewrite <- (table_rows_decoded _ (extracted_decoded content)).
  apply create_test_file_writes, extracted_writable, Hs.
Qed.

Lemma rows_of_extracted_entries_witness :
  fs sample_world !! sty_file = Some sample_content
  ∧ no_surrogates (extracted sample_content)
  ∧ ∃ chars,
      extract_unicode_chars sty_file sample_world = (Returned chars, sample_world)
      ∧ writes (create_test_file chars test_output) test_output
          (preamble ++ summary_line (length chars) ++ table_head
           ++ concat (map row_text (omap row_of_group (map fst chars)))
           ++ closing) empty_world.
Proof.
  assert (Hf : fs sample_world !! sty_file = Some sample_content)
    by (vm_compute; reflexivity).
  pose proof sample_no_surrogates as Hs.
  split; [exact Hf|]. split; [exact Hs|].
  exact (rows_of_extracted_entries sty_file sample_content sample_world
           test_output empty_world Hf Hs).
Defined.

(** ** The whole-file extraction *)

(** X12: whatever its argument, [extract_all_unicode_chars] reads the
    declaration file of the fixed name and, when no extracted character
    is a surrogate, writes the document of all the extracted entries to
    test-file.tex, prints their number, and does nothing else. *)
Theorem extract_all_ignores_its_argument filename content w :
  fs w !! sty_file = Some content →
  no_surrogates (extracted content) →
  extract_all_unicode_chars filename w
  = (Returned tt,
     mkWorld (<[test_output := document (extracted content)]> (fs w))
       (trace w ++ [Write test_output (document (extracted content));
                    Print (extracted_line (length (extracted content)))])).
Proof.
  intros Hf Hs. unfold extract_all_unicode_chars.
  erewrite bind_Returned
    by (apply (extract_unicode_chars_spec _ content); exact Hf).
  erewrite bind_Returned
    by (apply create_test_file_writes, extracted_writable, Hs).
  unfold print, emit. cbn [fs trace]. rewrite <- app_assoc. reflexivity.
Qed.

Lemma extract_all_ignores_its_argument_witness :
  fs sample_world !! sty_file = Some sample_content
  ∧ no_surrogates (extracted sample_content)
  ∧ extract_all_unicode_chars (py "other.sty") sample_world
    = (Returned tt,
       mkWorld (<[test_output := document (extracted sample_content)]>
                  (fs sample_world))
         (trace sample_world
          ++ [Write test_output (document (extracted sample_content));
              Print (extracted_line (length (extracted sample_content)))])).
Proof.
  assert (Hf : fs sample_world !! sty_file = Some sample_content)
    by (vm_compute; reflexivity).
  pose proof sample_no_surrogates as Hs.
  split; [exact Hf|]. split; [exact Hs|].
  exact (extract_all_ignores_its_argument (py "other.sty") sample_content
           sample_world Hf Hs).
Defined.

(** X13: without the declaration file of the fixed name,
    [extract_all_unicode_chars] raises [FileNotFoundError] for that
    name, also when the file named by its argument exists; it writes
    and prints nothing. *)
Theorem extract_all_without_declaration_file filename w :
  fs w !! sty_file = None →
  extract_all_unicode_chars filename w
  = (Raised (FileNotFoundError sty_file), w).
Proof.
  intros Hf. unfold extract_all_unicode_chars.
  apply bind_Raised, extract_unicode_chars_missing. exact Hf.
Qed.

Lemma extract_all_without_declaration_file_witness :
  fs (mkWorld {[ py "other.sty" := sample_content ]} []) !! sty_file = None
  ∧ extract_all_unicode_chars (py "other.sty")
      (mkWorld {[ py "other.sty" := sample_content ]} [])
    = (Raised (FileNotFoundError sty_file),
       mkWorld {[ py "other.sty" := sample_content ]} []).
Proof.
  split; [vm_compute; reflexivity|].
  apply (extract_all_without_declaration_file (py "other.sty")).
  vm_compute. reflexivity.
Defined.

(** ** The run as a whole *)

(** X14: without the declaration file, [main] makes the output
    directory and then raises [FileNotFoundError]: no document is
    written, no command is run, nothing is printed. *)
Theorem main_without_declaration_file exit_status outputs w :
  fs w !! sty_file = None →
  main exit_status outputs w
  = (Raised (FileNotFoundError sty_file),
     mkWorld (fs w) (trace w ++ [Makedirs (py "test_results")])).
Proof.
  intros Hf. unfold main. apply bind_Raised, process_missing. exact Hf.
Qed.

Lemma main_without_declaration_file_witness :
  fs empty_world !! sty_file = None
  ∧ main pass_all log_outputs empty_world
    = (Raised (FileNotFoundError sty_file),
       mkWorld (fs empty_world)
         (trace empty_world ++ [Makedirs (py "test_results")])).
Proof.
  split; [vm_compute; reflexivity|].
  apply (main_without_declaration_file pass_all log_outputs empty_world).
  vm_compute. reflexivity.
Defined.

Section Runs.

Variable exit_status : nat -> Z.
Variable outputs : nat -> gmap str str -> gmap str str.

Lemma successes_none k chars :
  (∀ i, (i < length chars)%nat → exit_status (k + i) ≠ 0) →
  successes exit_status k chars = [].
Proof.
  revert k. induction chars as [|e chars IH]; intros k Hall; [reflexivity|].
  cbn [successes]. destruct (Z.eqb_spec (exit_status k) 0) as [Hz|_].
  - exfalso. apply (Hall 0%nat); [simpl; lia|]. rewrite Nat.add_0_r. exact Hz.
  - apply IH. intros i Hi. replace (S k + i)%nat with (k + S i)%nat by lia.
    apply Hall. simpl. lia.
Qed.

Lemma successes_all k chars :
  (∀ i, (i < length chars)%nat → exit_status (k + i) = 0) →
  successes exit_status k chars = chars.
Proof.
  revert k. induction chars as [|e chars IH]; intros k Hall; [reflexivity|].
  cbn [successes]. destruct (Z.eqb_spec (exit_status k) 0) as [_|Hnz].
  - f_equal. apply IH. intros i Hi.
    replace (S k + i)%nat with (k + S i)%nat by lia. apply Hall. simpl. lia.
  - exfalso. apply Hnz. rewrite <- (Nat.add_0_r k). apply Hall. simpl. lia.
Qed.

Lemma test_file_inj h1 h2 : test_file h1 = test_file h2 → h1 = h2.
Proof.
  unfold test_file. intros H.
  apply app_inv_head, app_inv_head, app_inv_tail in H. exact H.
Qed.

(** A path that the commands leave alone and that is no test file of
    the entries is after the loop as it was before. *)
Lemma loop_files_other k chars files path :
  (∀ j fs0, outputs j fs0 !! path = fs0 !! path) →
  (∀ e : entry, e ∈ chars → path ≠ test_file e.1) →
  loop_files outputs k chars files !! path = files !! path.
Proof.
  intros Hout. revert k files.
  induction chars as [|x chars IH]; intros k files Hne; [reflexivity|].
  cbn [loop_files].
  rewrite IH by (intros e He; apply Hne, list_elem_of_further, He).
  rewrite Hout. apply lookup_insert_ne. intros E.
  apply (Hne x); [apply list_elem_of_here|]. symmetry. exact E.
Qed.

Lemma loop_files_entry k chars files e :
  (∀ j fs0, outputs j fs0 !! test_file e.1 = fs0 !! test_file e.1) →
  (∀ e1 e2 : entry, e1 ∈ chars → e2 ∈ chars → e1.1 = e2.1 → e1 = e2) →
  e ∈ chars →
  loop_files outputs k chars files !! test_file e.1 = Some (document [e]).
Proof.
  intros Hout. revert k files.
  induction chars as [|x chars IH]; intros k files Hfun He.
  - apply elem_of_nil in He. contradiction.
  - cbn [loop_files].
    destruct (decide (e ∈ chars)) as [Hin|Hnotin].
    + apply IH; [|exact Hin]. intros e1 e2 H1 H2.
      apply Hfun; apply list_elem_of_further; assumption.
    + apply elem_of_cons in He as [->|He]; [|contradiction].
      rewrite loop_files_other; [rewrite Hout; apply lookup_insert_eq|exact Hout|].
      intros e' He' E. apply test_file_inj in E. apply Hnotin.
      assert (Heq : e' = x).
      { apply Hfun; [apply list_elem_of_further, He'|apply list_elem_of_here
                    |congruence]. }
      rewrite <- Heq. exact He'.
Qed.

Lemma final_files_other successful files path :
  path ≠ final_output → final_files successful files !! path = files !! path.
Proof.
  intros Hne. destruct successful; [reflexivity|].
  apply lookup_insert_ne. congruence.
Qed.

Lemma extracted_functional content (e1 e2 : entry) :
  e1 ∈ extracted content → e2 ∈ extracted content → e1.1 = e2.1 → e1 = e2.
Proof.
  intros H1 H2 E. apply extracted_entry in H1 as [_ E1], H2 as [_ E2].
  destruct e1 as [h1 c1], e2 as [h2 c2]. simpl in *. congruence.
Qed.

End Runs.

(** X15: on a declaration file with no surrogate, when every
    compilation of the run returns a status other than zero, as when
    pdflatex is missing, the run still compiles every entry once,
    returns the empty list and writes no consolidated document. *)
Theorem nothing_compiles exit_status outputs content w :
  fs w !! sty_file = Some content →
  no_surrogates (extracted content) →
  (∀ i, (i < length (extracted content))%nat →
        exit_status (calls w + i)%nat ≠ 0) →
  ∃ events files,
    process_unicode_chars_individually exit_status outputs w
    = (Returned [], mkWorld files (trace w ++ events))
    ∧ length (List.filter is_system events) = length (extracted content)
    ∧ Forall (λ ev, ∀ doc, ev ≠ Write final_output doc) events.
Proof.
  intros Hf Hs Hall. eexists. eexists.
  split.
  { rewrite (process_spec exit_status outputs content w Hf Hs).
    rewrite (successes_none exit_status _ _ Hall). reflexivity. }
  cbn [final_events]. rewrite app_nil_r.
  split.
  - cbn [app List.filter is_system]. rewrite loop_commands. apply length_imap.
  - apply Forall_forall. intros ev Hev doc ->.
    apply elem_of_cons in Hev as [Hev|Hev]; [discriminate|].
    apply loop_no_final_write in Hev. exact Hev.
Qed.

Lemma nothing_compiles_witness :
  fs sample_world !! sty_file = Some sample_content
  ∧ no_surrogates (extracted sample_content)
  ∧ (∀ i, (i < length (extracted sample_content))%nat →
          fail_all (calls sample_world + i)%nat ≠ 0)
  ∧ ∃ events files,
      process_unicode_chars_individually fail_all log_outputs sample_world
      = (Returned [], mkWorld files (trace sample_world ++ events))
      ∧ length (List.filter is_system events)
        = length (extracted sample_content)
      ∧ Forall (λ ev, ∀ doc, ev ≠ Write final_output doc) events.
Proof.
  assert (Hf : fs sample_world !! sty_file = Some sample_content)
    by (vm_compute; reflexivity).
  pose proof sample_no_surrogates as Hs.
  assert (Hall : ∀ i, (i < length (extracted sample_content))%nat →
                      fail_all (calls sample_world + i)%nat ≠ 0)
    by (intros i _; discriminate).
  split; [exact Hf|]. split; [exact Hs|]. split; [exact Hall|].
  exact (nothing_compiles fail_all log_outputs sample_content sample_world
           Hf Hs Hall).
Defined.

(** X16: on a declaration file with no surrogate and at least one
    entry, when every compilation of the run returns zero, the run
    returns all the extracted entries, the consolidated file holds the
    document of all of them, and the last line printed gives their
    number. *)
Theorem everything_compiles exit_status outputs content w :
  fs w !! sty_file = Some content →
  no_surrogates (extracted content) →
  extracted content ≠ [] →
  (∀ i, (i < length (extracted content))%nat →
        exit_status (calls w + i)%nat = 0) →
  ∃ events files,
    process_unicode_chars_individually exit_status outputs w
    = (Returned (extracted content), mkWorld files (trace w ++ events))
    ∧ files !! final_output = Some (document (extracted content))
    ∧ last events
      = Some (Print (created_line (length (extracted content)))).
Proof.
  intros Hf Hs Hne Hall. eexists. eexists.
  split.
  { rewrite (process_spec exit_status outputs content w Hf Hs).
    rewrite (successes_all exit_status _ _ Hall). reflexivity. }
  destruct (extracted content) as [|e l]; [contradiction|].
  cbn [final_events final_files]. split; [apply lookup_insert_eq|].
  rewrite app_assoc.
  change [Write final_output (document (e :: l));
          Print (created_line (length (e :: l)))]
    with ([Write final_output (document (e :: l))]
          ++ [Print (created_line (length (e :: l)))]).
  rewrite app_assoc. apply last_snoc.
Qed.

Lemma everything_compiles_witness :
  fs sample_world !! sty_file = Some sample_content
  ∧ no_surrogates (extracted sample_content)
  ∧ extracted sample_content ≠ []
  ∧ (∀ i, (i < length (extracted sample_content))%nat →
          pass_all (calls sample_world + i)%nat = 0)
  ∧ ∃ events files,
      process_unicode_chars_individually pass_all log_outputs sample_world
      = (Returned (extracted sample_content),
         mkWorld files (trace sample_world ++ events))
      ∧ files !! final_output = Some (document (extracted sample_content))
      ∧ last events
        = Some (Print (created_line (length (extracted sample_content)))).
Proof.
  assert (Hf : fs sample_world !! sty_file = Some sample_content)
    by (vm_compute; reflexivity).
  pose proof sample_no_surrogates as Hs.
  assert (Hne : extracted sample_content ≠ [])
    by (vm_compute; discriminate).
  assert (Hall : ∀ i, (i < length (extracted sample_content))%nat →
                      pass_all (calls sample_world + i)%nat = 0)
    by (intros i _; reflexivity).
  split; [exact Hf|]. split; [exact Hs|]. split; [exact Hne|].
  split; [exact Hall|].
  exact (everything_compiles pass_all log_outputs sample_content sample_world
           Hf Hs Hne Hall).
Defined.

(** X17: after a run on a declaration file with no surrogate, whatever
    the exit statuses, a path that the commands run by [os.system]
    leave as it is holds this: if it is the test file of an extracted
    entry, the document of that entry alone; if it is neither such a
    test file nor the consolidated document, what it held before the
    run, as the declaration file does. *)
Theorem files_after_the_run exit_status outputs content w path :
  fs w !! sty_file = Some content →
  no_surrogates (extracted content) →
  (∀ k files, outputs k files !! path = files !! path) →
  ∃ successful events files,
    process_unicode_chars_individually exit_status outputs w
    = (Returned successful, mkWorld files (trace w ++ events))
    ∧ (∀ e : entry, e ∈ extracted content → path = test_file e.1 →
         files !! path = Some (document [e]))
    ∧ (path ≠ final_output →
       (∀ e : entry, e ∈ extracted content → path ≠ test_file e.1) →
       files !! path = fs w !! path).
Proof.
  intros Hf Hs Hout. eexists. eexists. eexists.
  split; [apply (process_spec exit_status outputs content w Hf Hs)|].
  split.
  - intros e He ->. rewrite final_files_other by apply test_file_ne.
    apply loop_files_entry; [exact Hout| |exact He].
    intros e1 e2. apply extracted_functional.
  - intros Hfinal Htest. rewrite final_files_other by exact Hfinal.
    apply loop_files_other; assumption.
Qed.

Lemma files_after_the_run_witness :
  fs sample_world !! sty_file = Some sample_content
  ∧ no_surrogates (extracted sample_content)
  ∧ (∀ k files, log_outputs k files !! test_file (py "0041")
                = files !! test_file (py "0041"))
  ∧ ∃ successful events files,
      process_unicode_chars_individually fail_second log_outputs sample_world
      = (Returned successful, mkWorld files (trace sample_world ++ events))
      ∧ (∀ e : entry, e ∈ extracted sample_content →
           test_file (py "0041") = test_file e.1 →
           files !! test_file (py "0041") = Some (document [e]))
      ∧ (test_file (py "0041") ≠ final_output →
         (∀ e : entry, e ∈ extracted sample_content →
            test_file (py "0041") ≠ test_file e.1) →
         files !! test_file (py "0041")
         = fs sample_world !! test_file (py "0041")).
Proof.
  assert (Hf : fs sample_world !! sty_file = Some sample_content)
    by (vm_compute; reflexivity).
  pose proof sample_no_surrogates as Hs.
  assert (Hout : ∀ k files, log_outputs k files !! test_file (py "0041")
                            = files !! test_file (py "0041")).
  { intros k files. unfold log_outputs. apply lookup_insert_ne. discriminate. }
  split; [exact Hf|]. split; [exact Hs|]. split; [exact Hout|].
  exact (files_after_the_run fail_second log_outputs sample_content sample_world
           (test_file (py "0041")) Hf Hs Hout).
Defined.

Lemma loop_events_imap exit_status k chars :
  loop_events exit_status k chars
  = concat (imap (λ i e, entry_events exit_status (k + i) e) chars).
Proof.
  revert k. induction chars as [|e chars IH]; intros k; [reflexivity|].
  cbn [loop_events]. rewrite imap_cons. cbn [concat].
  rewrite Nat.add_0_r, IH. do 2 f_equal.
  apply imap_ext. intros i x _. simpl. f_equal. lia.
Qed.

(** X18: a run on a declaration file with no surrogate does this and
    nothing else, in this order: it makes the output directory; for
    each extracted entry in turn it writes the test document of the
    entry, runs pdflatex on it and prints the status line, which says
    success exactly for the status zero; at the end, if an entry
    succeeded, it writes the consolidated document and prints the
    summary line. *)
Theorem run_in_order exit_status outputs content w :
  fs w !! sty_file = Some content →
  no_surrogates (extracted content) →
  ∃ successful files,
    process_unicode_chars_individually exit_status outputs w
    = (Returned successful,
       mkWorld files
         (trace w ++ [Makedirs (py "test_results")]
          ++ concat
               (imap (λ i e,
                        [Write (test_file e.1) (document [e]);
                         System (command e.1) (exit_status (calls w + i)%nat);
                         Print (status_line e
                                  (exit_status (calls w + i)%nat =? 0))])
                  (extracted content))
          ++ match successful with
             | [] => []
             | _ :: _ =>
                 [Write final_output (document successful);
                  Print (created_line (length successful))]
             end)).
Proof.
  intros Hf Hs. eexists. eexists.
  rewrite (process_spec exit_status outputs content w Hf Hs), loop_events_imap.
  reflexivity.
Qed.

Lemma run_in_order_witness :
  fs sample_world !! sty_file = Some sample_content
  ∧ no_surrogates (extracted sample_content)
  ∧ ∃ successful files,
      process_unicode_chars_individually fail_second log_outputs sample_world
      = (Returned successful,
         mkWorld files
           (trace sample_world ++ [Makedirs (py "test_results")]
            ++ concat
                 (imap (λ i e,
                          [Write (test_file e.1) (document [e]);
                           System (command e.1)
                             (fail_second (calls sample_world + i)%nat);
                           Print (status_line e
                                    (fail_second (calls sample_world + i)%nat
                                     =? 0))])
                    (extracted sample_content))
            ++ match successful with
               | [] => []
               | _ :: _ =>
                   [Write final_output (document successful);
                    Print (created_line (length successful))]
               end)).
Proof.
  assert (Hf : fs sample_world !! sty_file = Some sample_content)
    by (vm_compute; reflexivity).
  pose proof sample_no_surrogates as Hs.
  split; [exact Hf|]. split; [exact Hs|].
  exact (run_in_order fail_second log_outputs sample_content sample_world Hf Hs).
Defined.

(** ** A row that cannot be written *)

Lemma encode_error_app_encodable a b :
  encodable a → encode_error (a ++ b) = encode_error b.
Proof.
  unfold encodable, encode_error. induction a as [|x a IH]; [reflexivity|].
  simpl. destruct (is_surrogate x); [discriminate|exact IH].
Qed.

Lemma encode_error_app_Some a b c :
  encode_error a = Some c → encode_error (a ++ b) = Some c.
Proof.
  unfold encode_error. induction a as [|x a IH]; [discriminate|].
  simpl. destruct (is_surrogate x); [trivial|exact IH].
Qed.

(** X19: when the character of an entry has a surrogate, the entries
    before it being writable, [create_test_file] raises
    [UnicodeEncodeError] at the row of that entry: the file is left
    with the text up to the rows of the entries before it, without the
    end of the table and of the document, and the entries after it are
    not looked at. *)
Theorem surrogate_stops_the_document l1 hex_code char c l2 output_filename w :
  Forall entry_writable l1 →
  encodable hex_code →
  char ≠ py "&" →
  encode_error char = Some c →
  create_test_file (l1 ++ (hex_code, char) :: l2) output_filename w
  = (Raised (UnicodeEncodeError c),
     mkWorld
       (<[output_filename :=
            preamble ++ summary_line (length (l1 ++ (hex_code, char) :: l2))
            ++ table_head ++ rows_text l1]> (fs w))
       (trace w
        ++ [Write output_filename
              (preamble ++ summary_line (length (l1 ++ (hex_code, char) :: l2))
               ++ table_head ++ rows_text l1)])).
Proof.
  intros Hl1 Hh Hamp Hc.
  assert (Hper : char ≠ py "%") by (intros ->; discriminate Hc).
  apply (create_test_file_raises l1 (hex_code, char) (hex_code, char)).
  - exact Hl1.
  - unfold row_of. rewrite !decide_False by assumption. reflexivity.
  - unfold row_text. cbn [fst snd].
    rewrite (encode_error_app_encodable (py "U+")) by apply encodable_py.
    rewrite (encode_error_app_encodable hex_code) by exact Hh.
    rewrite (encode_error_app_encodable (py " & ")) by apply encodable_py.
    apply encode_error_app_Some, Hc.
Qed.

Lemma surrogate_stops_the_document_witness :
  Forall entry_writable [(py "0041", py "A")]
  ∧ encodable (py "D800")
  ∧ [55296%N] ≠ py "&"
  ∧ encode_error [55296%N] = Some 55296%N
  ∧ create_test_file
      ([(py "0041", py "A")] ++ (py "D800", [55296%N]) :: [(py "0042", py "B")])
      final_output empty_world
    = (Raised (UnicodeEncodeError 55296),
       mkWorld
         (<[final_output :=
              preamble
              ++ summary_line
                   (length ([(py "0041", py "A")]
                            ++ (py "D800", [55296%N]) :: [(py "0042", py "B")]))
              ++ table_head ++ rows_text [(py "0041", py "A")]]>
            (fs empty_world))
         (trace empty_world
          ++ [Write final_output
                (preamble
                 ++ summary_line
                      (length ([(py "0041", py "A")]
                               ++ (py "D800", [55296%N])
                                  :: [(py "0042", py "B")]))
                 ++ table_head ++ rows_text [(py "0041", py "A")])])).
Proof.
  assert (H1 : Forall entry_writable [(py "0041", py "A")])
    by (repeat constructor).
  assert (H2 : encodable (py "D800")) by reflexivity.
  assert (H3 : [55296%N] ≠ py "&") by discriminate.
  assert (H4 : encode_error [55296%N] = Some 55296%N) by reflexivity.
  split; [exact H1|]. split; [exact H2|]. split; [exact H3|]. split; [exact H4|].
  exact (surrogate_stops_the_document [(py "0041", py "A")] (py "D800")
           [55296%N] 55296%N [(py "0042", py "B")] final_output empty_world
           H1 H2 H3 H4).
Defined.

(** ** The table of writable entries *)

(** X20: for every list of writable entries, the Document Generator
    writes the whole document; no row of its table has a lone ampersand
    as its character field, and the rows are as many as the entries,
    less the entries whose character is the ampersand. *)
Theorem writable_table_skips_ampersands chars output_filename w :
  Forall entry_writable chars →
  writes (create_test_file chars output_filename) output_filename
    (preamble ++ summary_line (length chars) ++ table_head
     ++ concat (map row_text (table_rows chars)) ++ closing) w
  ∧ (∀ r, r ∈ table_rows chars → r.2 ≠ py "&")
  ∧ length (table_rows chars) = (length chars - length (ampersands chars))%nat.
Proof.
  intros Hall. split; [|split].
  - apply (create_test_file_writes chars output_filename w Hall).
  - intros r Hr. unfold table_rows in Hr.
    apply list_elem_of_omap in Hr as (e & _ & He).
    eapply row_of_field, He.
  - rewrite (rows_and_ampersands chars). lia.
Qed.

Lemma writable_table_skips_ampersands_witness :
  Forall entry_writable [(py "0041", py "A"); (py "0026", py "&")]
  ∧ writes (create_test_file [(py "0041", py "A"); (py "0026", py "&")]
              final_output) final_output
      (preamble
       ++ summary_line (length [(py "0041", py "A"); (py "0026", py "&")])
       ++ table_head
       ++ concat (map row_text
                    (table_rows [(py "0041", py "A"); (py "0026", py "&")]))
       ++ closing) empty_world
  ∧ (∀ r, r ∈ table_rows [(py "0041", py "A"); (py "0026", py "&")] →
          r.2 ≠ py "&")
  ∧ length (table_rows [(py "0041", py "A"); (py "0026", py "&")])
    = (length [(py "0041", py "A"); (py "0026", py "&")]
       - length (ampersands [(py "0041", py "A"); (py "0026", py "&")]))%nat.
Proof.
  assert (H : Forall entry_writable [(py "0041", py "A"); (py "0026", py "&")])
    by (repeat constructor).
  split; [exact H|].
  exact (writable_table_skips_ampersands
           [(py "0041", py "A"); (py "0026", py "&")] final_output empty_world H).
Defined.

(** X21: in a list of writable entries, an entry whose character is the
    percent sign is written as a row with a backslash before the
    percent sign, and an entry whose character is neither the percent
    sign nor the ampersand is written as a row with its character as it
    is; the identifier is written as it is in both. *)
Theorem writable_rows_escape_percent_only
    l1 hex_code char l2 output_filename w :
  Forall entry_writable (l1 ++ (hex_code, char) :: l2) →
  char ≠ py "&" →
  writes (create_test_file (l1 ++ (hex_code, char) :: l2) output_filename)
    output_filename
    (preamble ++ summary_line (length (l1 ++ (hex_code, char) :: l2))
     ++ table_head ++ rows_text l1
     ++ (py "U+" ++ hex_code ++ py " & "
         ++ (if decide (char = py "%") then py "\%" else char)
         ++ py " \\" ++ nl)
     ++ rows_text l2 ++ closing) w.
Proof.
  intros Hall Hamp.
  pose proof (create_test_file_writes _ output_filename w Hall) as Hw.
  unfold writes in *. rewrite Hw. unfold document.
  rewrite (rows_text_app l1 ((hex_code, char) :: l2)).
  change ((hex_code, char) :: l2) with ([(hex_code, char)] ++ l2) at 2 4.
  rewrite (rows_text_app [(hex_code, char)] l2).
  assert (Hone : rows_text [(hex_code, char)]
                 = py "U+" ++ hex_code ++ py " & "
                   ++ (if decide (char = py "%") then py "\%" else char)
                   ++ py " \\" ++ nl).
  { unfold rows_text, table_rows, row_of. cbn [omap list_omap].
    rewrite decide_False by exact Hamp. cbn [map concat]. apply app_nil_r. }
  rewrite Hone, <- !app_assoc. reflexivity.
Qed.

Lemma writable_rows_escape_percent_only_witness :
  Forall entry_writable
    ([(py "0026", py "&")] ++ (py "0025", py "%") :: [(py "0041", py "A")])
  ∧ py "%" ≠ py "&"
  ∧ writes (create_test_file
              ([(py "0026", py "&")] ++ (py "0025", py "%")
               :: [(py "0041", py "A")]) final_output)
      final_output
      (preamble
       ++ summary_line
            (length ([(py "0026", py "&")] ++ (py "0025", py "%")
                     :: [(py "0041", py "A")]))
       ++ table_head ++ rows_text [(py "0026", py "&")]
       ++ (py "U+" ++ py "0025" ++ py " & "
           ++ (if decide (py "%" = py "%") then py "\%" else py "%")
           ++ py " \\" ++ nl)
       ++ rows_text [(py "0041", py "A")] ++ closing) empty_world.
Proof.
  assert (H : Forall entry_writable
                ([(py "0026", py "&")] ++ (py "0025", py "%")
                 :: [(py "0041", py "A")])) by (repeat constructor).
  assert (Hne : py "%" ≠ py "&") by discriminate.
  split; [exact H|]. split; [exact Hne|].
  exact (writable_rows_escape_percent_only [(py "0026", py "&")] (py "0025")
           (py "%") [(py "0041", py "A")] final_output empty_world H Hne).
Defined.

(** X22: on a declaration file with no surrogate, for every assignment
    of exit statuses, the commands that the run executes are one
    compilation per extracted entry, in the order of extraction,
    whatever the statuses returned before; the status line of each
    entry says success exactly when its own compilation returned zero,
    and an entry is returned as successful exactly when a compilation
    of it returned zero. *)
Theorem surrogate_free_run_tests_every_entry_once exit_status outputs content w :
  fs w !! sty_file = Some content →
  no_surrogates (extracted content) →
  ∃ successful events files,
    process_unicode_chars_individually exit_status outputs w
    = (Returned successful, mkWorld files (trace w ++ events))
    ∧ List.filter is_system events
      = imap (λ i e, System (command e.1) (exit_status (calls w + i)%nat))
          (extracted content)
    ∧ (∀ i e, extracted content !! i = Some e →
         Print (status_line e (exit_status (calls w + i)%nat =? 0)) ∈ events)
    ∧ (∀ e, e ∈ successful
            ↔ ∃ i, extracted content !! i = Some e
                   ∧ exit_status (calls w + i)%nat = 0).
Proof.
  intros Hf Hs. eexists. eexists. eexists.
  split; [apply (process_spec exit_status outputs content w Hf Hs)|].
  split; [|split].
  - cbn [app List.filter is_system]. rewrite List.filter_app, loop_commands.
    destruct (successes exit_status (calls w) (extracted content));
      cbn [final_events List.filter is_system]; apply app_nil_r.
  - intros i e Hi. apply list_elem_of_further, elem_of_app. left.
    apply loop_status_lines. exact Hi.
  - intros e. apply elem_of_successes.
Qed.

Lemma surrogate_free_run_tests_every_entry_once_witness :
  fs sample_world !! sty_file = Some sample_content
  ∧ no_surrogates (extracted sample_content)
  ∧ ∃ successful events files,
      process_unicode_chars_individually fail_second log_outputs sample_world
      = (Returned successful, mkWorld files (trace sample_world ++ events))
      ∧ List.filter is_system events
        = imap (λ i e, System (command e.1)
                         (fail_second (calls sample_world + i)%nat))
            (extracted sample_content)
      ∧ (∀ i e, extracted sample_content !! i = Some e →
           Print (status_line e (fail_second (calls sample_world + i)%nat =? 0))
           ∈ events)
      ∧ (∀ e, e ∈ successful
              ↔ ∃ i, extracted sample_content !! i = Some e
                     ∧ fail_second (calls sample_world + i)%nat = 0).
Proof.
  assert (Hf : fs sample_world !! sty_file = Some sample_content)
    by (vm_compute; reflexivity).
  pose proof sample_no_surrogates as Hs.
  split; [exact Hf|]. split; [exact Hs|].
  exact (surrogate_free_run_tests_every_entry_once fail_second log_outputs
           sample_content sample_world Hf Hs).
Defined.

(** ** The declarations of a text *)



(** * The claims *)

(** ** The Extractor *)

(** C1: the code at the failing input, a file with a declaration of
    identifier D800: the group is converted like any other, its entry
    is returned with the surrogate as its character, next to the entry
    of the letter, and nothing is printed. *)
Lemma surrogate_entry_is_returned :
  extract_unicode_chars sty_file surrogate_world
  = (Returned [(py "0041", py "A"); (py "D800", [55296%N])], surrogate_world)
  ∧ trace surrogate_world = [].
Proof. split; vm_compute; reflexivity. Qed.






(** The file of the witness reads as its three declarations, and the
    Extractor returns three entries, the first and the last equal. *)
Lemma repeated_declaration_is_kept :
  declarations_of
    (declaration (py "0041") (py "A") ++ declaration (py "0042") (py "B")
     ++ declaration (py "0041") (py "A") ++ [])
    [(py "0041", py "A"); (py "0042", py "B"); (py "0041", py "A")]
  ∧ extracted
      (declaration (py "0041") (py "A") ++ declaration (py "0042") (py "B")
       ++ declaration (py "0041") (py "A") ++ [])
    = [(py "0041", py "A"); (py "0042", py "B"); (py "0041", py "A")].
Proof.
  split; [|vm_compute; reflexivity].
  repeat (constructor;
          [split; [reflexivity|repeat constructor]
          |repeat constructor; discriminate|]).
  constructor.
Qed.

(** ** The Document Generator *)

(** C4: the code at the failing input, the one entry of identifier D800
    that the Extractor returns: the write of its row raises
    [UnicodeEncodeError]; the file is left with the text up to the head
    of the table, with no row, for one entry that is no ampersand. *)
Lemma surrogate_row_is_not_written :
  create_test_file [(py "D800", [55296%N])] final_output empty_world
  = (Raised (UnicodeEncodeError 55296),
     mkWorld
       (<[final_output := preamble ++ summary_line 1 ++ table_head]>
          (fs empty_world))
       (trace empty_world
        ++ [Write final_output (preamble ++ summary_line 1 ++ table_head)]))
  ∧ ampersands [(py "D800", [55296%N])] = [].
Proof. split; vm_compute; reflexivity. Qed.

(** C5: the code at the failing input, a letter and then the entry of
    identifier D800, whose character is neither the percent sign nor
    the ampersand: the row of the letter is written, the write of the
    row of the second entry raises [UnicodeEncodeError], and the file
    is left without that row and without the end of the document. *)
Lemma surrogate_is_not_written_verbatim :
  create_test_file [(py "0041", py "A"); (py "D800", [55296%N])]
    final_output empty_world
  = (Raised (UnicodeEncodeError 55296),
     mkWorld
       (<[final_output :=
            preamble ++ summary_line 2 ++ table_head
            ++ py "U+0041 & A \\" ++ nl]> (fs empty_world))
       (trace empty_world
        ++ [Write final_output
              (preamble ++ summary_line 2 ++ table_head
               ++ py "U+0041 & A \\" ++ nl)]))
  ∧ [55296%N] ≠ py "%" ∧ [55296%N] ≠ py "&".
Proof.
  split; [vm_compute; reflexivity|]. split; discriminate.
Qed.

(** C8 does not hold as stated: an ampersand entry is counted in the
    summary line and not written as a row; the line says 1, the table
    has no row. *)
Lemma summary_counts_skipped_ampersand :
  writes (create_test_file [(py "0026", py "&")] final_output) final_output
    (lines ["\documentclass{article}";
            "\usepackage[utf8]{inputenc}";
            "\usepackage{DeclareUnicodeCharacter}"; "";
            "\usepackage{longtable}"; "";
            "\begin{document}"; "";
            "\section*{Unicode Characters Test}"; "";
            "1 characters supported, no more LaTeX Error: Unicode character ... not set up for use with LaTeX."; "";
            "\begin{longtable}{ll}";
            "Hex Code & Character \\";
            "\hline";
            "\end{longtable}"; "";
            "\end{document}"]%string) empty_world
  ∧ table_rows [(py "0026", py "&")] = [].
Proof. split; vm_compute; reflexivity. Qed.

(** C8, as the code has it: for every list of entries that can be
    written (no surrogate in an identifier or a character), the summary
    line of the generated document states the number of entries given
    to the Document Generator, which is the number of rows written plus
    the number of entries skipped for the ampersand rule. *)
Theorem summary_counts_input_entries chars output_filename w :
  Forall entry_writable chars →
  writes (create_test_file chars output_filename) output_filename
    (preamble ++ summary_line (length chars) ++ table_head
     ++ rows_text chars ++ closing) w
  ∧ length chars = (length (table_rows chars) + length (ampersands chars))%nat.
Proof.
  intros Hall. split.
  - apply (create_test_file_writes chars output_filename w Hall).
  - apply rows_and_ampersands.
Qed.

Lemma summary_counts_input_entries_witness :
  Forall entry_writable [(py "0026", py "&"); (py "0041", py "A")]
  ∧ writes (create_test_file [(py "0026", py "&"); (py "0041", py "A")]
              final_output) final_output
      (preamble
       ++ summary_line (length [(py "0026", py "&"); (py "0041", py "A")])
       ++ table_head
       ++ rows_text [(py "0026", py "&"); (py "0041", py "A")] ++ closing)
      empty_world
  ∧ length [(py "0026", py "&"); (py "0041", py "A")]
    = (length (table_rows [(py "0026", py "&"); (py "0041", py "A")])
       + length (ampersands [(py "0026", py "&"); (py "0041", py "A")]))%nat.
Proof.
  assert (H : Forall entry_writable [(py "0026", py "&"); (py "0041", py "A")])
    by (repeat constructor).
  split; [exact H|].
  exact (summary_counts_input_entries [(py "0026", py "&"); (py "0041", py "A")]
           final_output empty_world H).
Defined.

(** C10: given no entry, the Document Generator writes the whole
    document all the same: the preamble, the heading, the summary line
    with the count 0, the head of the table, no row, the end of the
    table and of the document. *)
Theorem generator_empty_document output_filename w :
  writes (create_test_file [] output_filename) output_filename
    (lines ["\documentclass{article}";
            "\usepackage[utf8]{inputenc}";
            "\usepackage{DeclareUnicodeCharacter}"; "";
            "\usepackage{longtable}"; "";
            "\begin{document}"; "";
            "\section*{Unicode Characters Test}"; "";
            "0 characters supported, no more LaTeX Error: Unicode character ... not set up for use with LaTeX."; "";
            "\begin{longtable}{ll}";
            "Hex Code & Character \\";
            "\hline";
            "\end{longtable}"; "";
            "\end{document}"]%string) w.
Proof.
  unfold writes.
  rewrite (create_test_file_writes [] output_filename w ltac:(constructor)).
  reflexivity.
Qed.

(** ** The Batch Tester *)

(** C2 does not hold as stated: of two extracted entries, the second
    failing, the run returns the first alone, with no record of the
    failed one and no flag. *)
Lemma failed_entry_is_not_returned :
  (extract_unicode_chars sty_file two_letters_world).1
  = Returned [(py "0041", py "A"); (py "0042", py "B")]
  ∧ (process_unicode_chars_individually fail_second log_outputs
       two_letters_world).1
    = Returned [(py "0041", py "A")].
Proof. split; vm_compute; reflexivity. Qed.

(** C2, as the code has it: the Batch Tester, called with no argument
    on a declaration file none of whose entries has a surrogate for its
    character, returns the list of the entries whose compilation
    returned status zero, in the order of extraction, as plain entries;
    the entries that failed are not in the list, which is shorter than
    the list of the extracted entries by their number. *)
Theorem tester_returns_successful_entries exit_status outputs content w :
  fs w !! sty_file = Some content →
  no_surrogates (extracted content) →
  ∃ w',
    process_unicode_chars_individually exit_status outputs w
    = (Returned (successes exit_status (calls w) (extracted content)), w')
    ∧ sublist (successes exit_status (calls w) (extracted content))
        (extracted content)
    ∧ length (extracted content)
      = (length (successes exit_status (calls w) (extracted content))
         + length (failures exit_status (calls w) (extracted content)))%nat.
Proof.
  intros Hf Hs. eexists.
  split; [apply (process_spec exit_status outputs content w Hf Hs)|].
  split; [apply successes_sublist|apply successes_failures].
Qed.

Lemma tester_returns_successful_entries_witness :
  fs sample_world !! sty_file = Some sample_content
  ∧ no_surrogates (extracted sample_content)
  ∧ ∃ w',
      process_unicode_chars_individually fail_second log_outputs sample_world
      = (Returned (successes fail_second (calls sample_world)
                     (extracted sample_content)), w')
      ∧ sublist (successes fail_second (calls sample_world)
                   (extracted sample_content))
          (extracted sample_content)
      ∧ length (extracted sample_content)
        = (length (successes fail_second (calls sample_world)
                     (extracted sample_content))
           + length (failures fail_second (calls sample_world)
                       (extracted sample_content)))%nat.
Proof.
  assert (Hf : fs sample_world !! sty_file = Some sample_content)
    by (vm_compute; reflexivity).
  pose proof sample_no_surrogates as Hs.
  split; [exact Hf|]. split; [exact Hs|].
  exact (tester_returns_successful_entries fail_second log_outputs
           sample_content sample_world Hf Hs).
Defined.

(** C6 does not hold as stated: when the ampersand compiles, it is
    among the successful entries that the run returns and counts, and
    the consolidated document has no row for it: two successful
    entries, one row. *)
Lemma successful_ampersand_has_no_row :
  ∃ w',
    process_unicode_chars_individually pass_all log_outputs
      (mkWorld {[ sty_file := py "\DeclareUnicodeCharacter{0041}{A}"
                              ++ py "\DeclareUnicodeCharacter{0026}{\&}" ]} [])
    = (Returned [(py "0041", py "A"); (py "0026", py "&")], w')
    ∧ fs w' !! final_output
      = Some (lines ["\documentclass{article}";
                     "\usepackage[utf8]{inputenc}";
                     "\usepackage{DeclareUnicodeCharacter}"; "";
                     "\usepackage{longtable}"; "";
                     "\begin{document}"; "";
                     "\section*{Unicode Characters Test}"; "";
                     "2 characters supported, no more LaTeX Error: Unicode character ... not set up for use with LaTeX."; "";
                     "\begin{longtable}{ll}";
                     "Hex Code & Character \\";
                     "\hline";
                     "U+0041 & A \\";
                     "\end{longtable}"; "";
                     "\end{document}"]%string).
Proof. eexists. split; vm_compute; reflexivity. Qed.

Lemma successes_decoded exit_status k content :
  Forall (λ e : entry, is_hex4 e.1 ∧ e.2 = [code_point e.1])
    (successes exit_status k (extracted content)).
Proof. apply successes_Forall, extracted_decoded. Qed.

(** C6, as the code has it: for every declaration file with no
    surrogate and every assignment of exit statuses to the
    compilations, the run writes the consolidated document exactly
    when at least one entry succeeded; the document is the one that the
    Document Generator makes of exactly the successful entries, in
    their order of extraction: its summary line counts them all, and
    its table has one row for each of them but those of identifier
    0026, the ampersand, which the generator skips; the last line
    printed reports the number of the successful entries. *)
Theorem tester_consolidated_document exit_status outputs content w :
  fs w !! sty_file = Some content →
  no_surrogates (extracted content) →
  ∃ successful events files,
    process_unicode_chars_individually exit_status outputs w
    = (Returned successful, mkWorld files (trace w ++ events))
    ∧ successful = successes exit_status (calls w) (extracted content)
    ∧ sublist successful (extracted content)
    ∧ (∀ doc, Write final_output doc ∈ events
              ↔ successful ≠ []
                ∧ doc = preamble ++ summary_line (length successful)
                        ++ table_head
                        ++ concat (map row_text
                                     (omap row_of_group (map fst successful)))
                        ++ closing)
    ∧ (successful ≠ [] →
       files !! final_output
       = Some (preamble ++ summary_line (length successful) ++ table_head
               ++ concat (map row_text (omap row_of_group (map fst successful)))
               ++ closing)
       ∧ last events = Some (Print (created_line (length successful)))).
Proof.
  intros Hf Hs.
  exists (successes exit_status (calls w) (extracted content)).
  eexists. eexists.
  split; [apply (process_spec exit_status outputs content w Hf Hs)|].
  split; [reflexivity|]. split; [apply successes_sublist|].
  rewrite <- (table_rows_decoded _ (successes_decoded exit_status (calls w) content)).
  fold (rows_text (successes exit_status (calls w) (extracted content))).
  fold (document (successes exit_status (calls w) (extracted content))).
  destruct (successes exit_status (calls w) (extracted content)) as [|e l];
    cbn [final_events final_files].
  - split; [|intros H; contradiction].
    intros doc. split; [|intros [H _]; contradiction].
    rewrite app_nil_r. intros Hin.
    apply elem_of_cons in Hin as [Hin|Hin]; [discriminate|].
    apply loop_no_final_write in Hin. contradiction.
  - split; [|intros _].
    + intros doc. split.
      * intros Hin. split; [discriminate|].
        apply elem_of_cons in Hin as [Hin|Hin]; [discriminate|].
        apply elem_of_app in Hin as [Hin|Hin];
          [apply loop_no_final_write in Hin; contradiction|].
        apply elem_of_cons in Hin as [Hin|Hin]; [injection Hin as ->; reflexivity|].
        apply elem_of_cons in Hin as [Hin|Hin]; [discriminate|].
        apply elem_of_nil in Hin. contradiction.
      * intros [_ ->]. apply list_elem_of_further, elem_of_app. right.
        apply list_elem_of_here.
    + split; [apply lookup_insert_eq|].
      rewrite app_assoc.
      change [Write final_output (document (e :: l));
              Print (created_line (length (e :: l)))]
        with ([Write final_output (document (e :: l))]
              ++ [Print (created_line (length (e :: l)))]).
      rewrite app_assoc. apply last_snoc.
Qed.

Lemma tester_consolidated_document_witness :
  fs sample_world !! sty_file = Some sample_content
  ∧ no_surrogates (extracted sample_content)
  ∧ ∃ successful events files,
      process_unicode_chars_individually pass_all log_outputs sample_world
      = (Returned successful, mkWorld files (trace sample_world ++ events))
      ∧ successful = successes pass_all (calls sample_world)
                       (extracted sample_content)
      ∧ sublist successful (extracted sample_content)
      ∧ (∀ doc, Write final_output doc ∈ events
                ↔ successful ≠ []
                  ∧ doc = preamble ++ summary_line (length successful)
                          ++ table_head
                          ++ concat (map row_text
                                       (omap row_of_group (map fst successful)))
                          ++ closing)
      ∧ (successful ≠ [] →
         files !! final_output
         = Some (preamble ++ summary_line (length successful) ++ table_head
                 ++ concat (map row_text
                              (omap row_of_group (map fst successful)))
                 ++ closing)
         ∧ last events = Some (Print (created_line (length successful)))).
Proof.
  assert (Hf : fs sample_world !! sty_file = Some sample_content)
    by (vm_compute; reflexivity).
  pose proof sample_no_surrogates as Hs.
  split; [exact Hf|]. split; [exact Hs|].
  exact (tester_consolidated_document pass_all log_outputs sample_content
           sample_world Hf Hs).
Defined.

(** C7: the code at the failing input, a declaration file with a
    surrogate between two letters: the three entries are extracted, the
    first is compiled, the write of the test document of the second
    raises [UnicodeEncodeError], the run stops there, and neither the
    second nor the third entry is ever compiled. *)
Lemma run_stops_at_surrogate :
  (extract_unicode_chars sty_file
     (mkWorld {[ sty_file := surrogate_between ]} [])).1
  = Returned [(py "0041", py "A"); (py "D800", [55296%N]); (py "0042", py "B")]
  ∧ ∃ w',
      process_unicode_chars_individually pass_all log_outputs
        (mkWorld {[ sty_file := surrogate_between ]} [])
      = (Raised (UnicodeEncodeError 55296), w')
      ∧ List.filter is_system (trace w') = [System (command (py "0041")) 0].
Proof.
  split; [vm_compute; reflexivity|].
  eexists. split; vm_compute; reflexivity.
Qed.
